(** * universal-developer: the command pipeline, embedded and verified

    The development follows the TypeScript sources
    - [src/adapters/base.ts]   (class [ModelAdapter]: registry, parser),
    - [src/adapters/claude.ts], [src/adapters/openai.ts],
      [src/adapters/qwen.ts]   (the per-provider transforms and the HTTP call),
    - [src/index.ts]           (class [UniversalLLM], the facade).

    Conventions of the embedding.
    - A JavaScript string is the list of its UTF-16 code units ([list N]);
      the regular expressions of the sources carry no [u] flag, so they work
      on code units as well.
    - A JavaScript [Map] is a [gmap].  The parameter object built by
      [parseParameters] is a plain object; the [gmap] that stands for it
      holds its own properties, and an assignment to it goes through
      [set_property], which follows what a plain object does under each key
      (the key [__proto__] is the one that stores nothing).
    - The body of a response is the value that [JSON.parse] makes of it (or
      its text, when it is not JSON); the reads of [executePrompt] are
      property reads on that value and throw where JavaScript throws.
    - A JavaScript number is a rational ([Q]).  The sources only add or
      subtract a constant and clamp with [Math.min]/[Math.max]; every order
      fact proved below about those is preserved by IEEE rounding, which is
      monotone.
    - The network is outside the program: it is an oracle passed to the
      functions that call it, and what the facade posts as telemetry is
      returned next to the result. *)

From Stdlib Require Import ZArith QArith Qminmax Lqa String Ascii.
From stdpp Require Import base option list gmap pretty.

Local Open Scope N_scope.

(** ** JavaScript strings *)

Module JS.

Abbreviation jstring := (list N).

(** A literal of the sources (all of them are ASCII). *)
Definition js (s : string) : jstring :=
  (λ a, N_of_ascii a) <$> list_ascii_of_string s.

(** [WhiteSpace] and [LineTerminator] of ECMAScript: the class [\s] of a
    regular expression and the characters removed by [String.prototype.trim]. *)
Definition is_space (c : N) : bool :=
  (c =? 9) || (c =? 10) || (c =? 11) || (c =? 12) || (c =? 13) || (c =? 32)
  || (c =? 160) || (c =? 5760) || ((8192 <=? c) && (c <=? 8202))
  || (c =? 8232) || (c =? 8233) || (c =? 8239) || (c =? 8287)
  || (c =? 12288) || (c =? 65279).

(** The class [[a-zA-Z0-9_]]. *)
Definition is_word (c : N) : bool :=
  ((97 <=? c) && (c <=? 122)) || ((65 <=? c) && (c <=? 90))
  || ((48 <=? c) && (c <=? 57)) || (c =? 95).

(** The class [[^\n]]. *)
Definition not_newline (c : N) : bool := negb (c =? 10).

(** The class [[^\s]]. *)
Definition not_space (c : N) : bool := negb (is_space c).

(** The longest prefix of characters of a class, and what follows it: the
    match of a greedy [C*] when nothing after it can make it give back. *)
Fixpoint take_while (p : N → bool) (s : jstring) : jstring :=
  match s with
  | c :: s' => if p c then c :: take_while p s' else []
  | [] => []
  end.

Fixpoint drop_while (p : N → bool) (s : jstring) : jstring :=
  match s with
  | c :: s' => if p c then drop_while p s' else s
  | [] => []
  end.

Fixpoint starts_with (pat s : jstring) : bool :=
  match pat, s with
  | [], _ => true
  | p :: pat', c :: s' => (p =? c) && starts_with pat' s'
  | _ :: _, [] => false
  end.

(** [s.endsWith(pat)]. *)
Definition ends_with (pat s : jstring) : bool :=
  starts_with (reverse pat) (reverse s).

(** [s.replace(pat, repl)] with a string pattern: the first occurrence of
    [pat] is replaced.  ([repl] is only ever the empty string in the sources,
    so that the [$] patterns of a replacement string play no role.) *)
Fixpoint replace (pat repl s : jstring) : jstring :=
  if starts_with pat s then repl ++ drop (length pat) s
  else match s with
       | c :: s' => c :: replace pat repl s'
       | [] => []
       end.

(** [s.trim()]. *)
Definition trim (s : jstring) : jstring :=
  reverse (drop_while is_space (reverse (drop_while is_space s))).

(** [x || d] on strings: the empty string is falsy. *)
Definition or_else (x : option jstring) (d : jstring) : jstring :=
  match x with
  | Some (c :: s) => c :: s
  | _ => d
  end.

End JS.
Export JS.

(** ** JavaScript numbers and values *)

(** [x || d] on numbers: [undefined] and [0] are falsy. *)
Definition num_or_else (x : option Q) (d : Q) : Q :=
  match x with
  | Some q => if Qeq_bool q 0 then d else q
  | None => d
  end.

(** The values that parameters take: the parser produces strings and [true];
    the default of a declaration is taken among the booleans, the numbers and
    the strings, as the defaults of the built-in commands are. *)
Inductive jsval :=
| JBool (b : bool)
| JNum (q : Q)
| JStr (s : jstring).

(** ** [src/adapters/base.ts] *)

Record ParameterDeclaration := {
  pname : jstring;
  pdescription : jstring;
  prequired : option bool;
  pdefault : option jsval   (* [None] is [undefined] *)
}.

Record TransformedPrompt := {
  systemPrompt : option jstring;
  userPrompt : jstring;
  modelParameters : option (gmap jstring jsval)
}.

(** The options handed to an adapter: [UniversalLLMOptions] without
    [provider] and [apiKey] (the rest pattern of [createAdapter]). *)
Record AdapterOptions := {
  opt_model : option jstring;
  opt_maxTokens : option Q;
  opt_temperature : option Q;
  opt_baseURL : option jstring;
  opt_telemetryEnabled : option bool;
  opt_telemetryEndpoint : option jstring;
  opt_anonymousId : option jstring;
  opt_sessionId : option jstring
}.

(** The second argument of a transform. *)
Record TransformOptions := {
  to_systemPrompt : jstring;
  to_parameters : gmap jstring jsval;
  to_options : AdapterOptions
}.

(** The [transform] field of a command.  The six built-in commands hold a
    method of the adapter bound to it ([this.transformThink.bind(this)], ...):
    a tag, which [run_transform] dispatches on the class of the adapter.  A command
    registered by a caller holds a function of its own; it resolves to a
    transformed prompt or rejects with an error message. *)
Inductive Transform :=
| TransformThink
| TransformFast
| TransformLoop
| TransformReflect
| TransformCollapse
| TransformFork
| TransformCustom (f : jstring → TransformOptions → jstring + TransformedPrompt).

Record SymbolicCommand := {
  name : jstring;
  description : jstring;
  aliases : option (list jstring);
  parameters : option (list ParameterDeclaration);
  transform : Transform
}.

(** The three subclasses of [ModelAdapter]. *)
Inductive AdapterClass := ClaudeAdapter | OpenAIAdapter | QwenAdapter.

(** An adapter: the fields of [ModelAdapter] and those that the three
    subclasses declare alike. *)
Record ModelAdapter := {
  adapterClass : AdapterClass;
  apiKey : jstring;
  options : AdapterOptions;
  commands : gmap jstring SymbolicCommand;
  aliasMap : gmap jstring jstring;
  baseURL : jstring;
  model : jstring;
  maxTokens : Q;
  temperature : Q
}.

Definition with_registry (a : ModelAdapter)
    (cs : gmap jstring SymbolicCommand) (al : gmap jstring jstring) : ModelAdapter :=
  {| adapterClass := adapterClass a; apiKey := apiKey a; options := options a;
     commands := cs; aliasMap := al;
     baseURL := baseURL a; model := model a;
     maxTokens := maxTokens a; temperature := temperature a |}.

Module Base.

(** [registerCommand]. *)
Definition registerCommand (command : SymbolicCommand) (a : ModelAdapter) : ModelAdapter :=
  with_registry a
    (<[name command := command]> (commands a))
    (match aliases command with
     | Some als => foldl (λ m alias, <[alias := name command]> m) (aliasMap a) als
     | None => aliasMap a
     end).

Definition core_command (n d : string) (ps : option (list ParameterDeclaration))
    (t : Transform) : SymbolicCommand :=
  {| name := js n; description := js d; aliases := None; parameters := ps; transform := t |}.

Definition iterations_parameter : ParameterDeclaration :=
  {| pname := js "iterations"; pdescription := js "Number of refinement iterations";
     prequired := Some false; pdefault := Some (JNum 3) |}.

Definition count_parameter : ParameterDeclaration :=
  {| pname := js "count"; pdescription := js "Number of alternatives to generate";
     prequired := Some false; pdefault := Some (JNum 2) |}.

(** [registerCoreCommands]: six calls of [registerCommand], in this order. *)
Definition registerCoreCommands (a : ModelAdapter) : ModelAdapter :=
  let a := registerCommand
    (core_command "think" "Activate extended reasoning pathways" None TransformThink) a in
  let a := registerCommand
    (core_command "fast" "Optimize for low-latency responses" None TransformFast) a in
  let a := registerCommand
    (core_command "loop" "Enable iterative refinement cycles"
       (Some [iterations_parameter]) TransformLoop) a in
  let a := registerCommand
    (core_command "reflect" "Trigger meta-analysis of outputs" None TransformReflect) a in
  let a := registerCommand
    (core_command "collapse" "Return to default behavior" None TransformCollapse) a in
  registerCommand
    (core_command "fork" "Generate multiple alternative responses"
       (Some [count_parameter]) TransformFork) a.

(** *** The two regular expressions *)

Definition slash : N := 47.
Definition dash : N := 45.
Definition equals : N := 61.

(** [prompt.match(commandRegex)], where [commandRegex] is a slash at the
    start of the string, one or more characters of [[a-zA-Z0-9_]] (group 1),
    and an optional group made of one or more [\s] and then any number of
    [[^\n]] (group 2): the whole match, group 1 and group 2 ([None] when the
    optional group took no part).
    Every quantifier is greedy and nothing follows the optional group, so the
    first attempt of the matcher, which takes the longest run at each
    quantifier, is the match. *)
Definition match_commandRegex (prompt : jstring) : option (jstring * jstring * option jstring) :=
  match prompt with
  | c :: s =>
      if c =? slash then
        let command := take_while is_word s in
        let s1 := drop_while is_word s in
        match command with
        | [] => None
        | _ :: _ =>
            let ws := take_while is_space s1 in
            let s2 := drop_while is_space s1 in
            match ws with
            | [] => Some (c :: command, command, None)
            | _ :: _ =>
                let rest := take_while not_newline s2 in
                Some (c :: command ++ ws ++ rest, command, Some rest)
            end
        end
      else None
  | [] => None
  end.

(** One attempt of [paramRegex] at the head of [s]; [paramRegex] is two
    dashes, one or more characters of [[a-zA-Z0-9_]] (group 1) and an optional
    group made of [=] and one or more [[^\s]] (group 2).  The result is
    the name, the value ([true] when group 2 took no part: the destructuring
    default [paramValue = true]) and the length of the match. *)
Definition match_paramRegex_here (s : jstring) : option (jstring * jsval * nat) :=
  match s with
  | d1 :: d2 :: s0 =>
      if (d1 =? dash) && (d2 =? dash) then
        let paramName := take_while is_word s0 in
        match paramName with
        | [] => None
        | _ :: _ =>
            match drop_while is_word s0 with
            | e :: s1 =>
                let paramValue := take_while not_space s1 in
                if (e =? equals) && negb (bool_decide (paramValue = [])) then
                  Some (paramName, JStr paramValue,
                        (2 + length paramName + 1 + length paramValue)%nat)
                else Some (paramName, JBool true, (2 + length paramName)%nat)
            | [] => Some (paramName, JBool true, (2 + length paramName)%nat)
            end
        end
      else None
  | _ => None
  end.

(** The loop [while ((match = paramRegex.exec(paramString)) !== null)] with
    the global flag: each call searches from [lastIndex], the end of the
    previous match.  [skip] counts the characters of the current position
    that the previous match has consumed. *)
Fixpoint exec_all (skip : nat) (s : jstring) : list (jstring * jsval) :=
  match s with
  | [] => []
  | _ :: s' =>
      match skip with
      | S k => exec_all k s'
      | O =>
          match match_paramRegex_here s with
          | Some (paramName, paramValue, len) =>
              (paramName, paramValue) :: exec_all (pred len) s'
          | None => exec_all 0 s'
          end
      end
  end.

(** *** [parseParameters] and [parseCommand] *)

(** [params[key] = value] on the plain object [params], for a value that is
    a boolean, a number or a string.  The assignment writes an own property
    under every key but one: under [__proto__] it runs the setter that the
    object inherits from [Object.prototype], which does nothing for such a
    value, and no property is written.  (Every other property of
    [Object.prototype] is a writable data property, which an assignment
    shadows by an own property.) *)
Definition set_property (key : jstring) (value : jsval)
    (params : gmap jstring jsval) : gmap jstring jsval :=
  if bool_decide (key = js "__proto__") then params else <[key := value]> params.

Definition set_defaults (ps : list ParameterDeclaration) : gmap jstring jsval :=
  foldl (λ params param,
           match pdefault param with
           | Some d => set_property (pname param) d params
           | None => params
           end) ∅ ps.

Definition assign_all (params : gmap jstring jsval)
    (ms : list (jstring * jsval)) : gmap jstring jsval :=
  foldl (λ params m, set_property m.1 m.2 params) params ms.

Definition parseParameters (a : ModelAdapter) (command paramString : jstring)
    : gmap jstring jsval :=
  match commands a !! command with
  | Some cmd =>
      match parameters cmd with
      | None | Some [] => ∅
      | Some ps => assign_all (set_defaults ps) (exec_all 0 paramString)
      end
  | None => ∅
  end.

(** [this.aliasMap.get(command) || command]. *)
Definition resolve_alias (a : ModelAdapter) (command : jstring) : jstring :=
  or_else (aliasMap a !! command) command.

Record ParsedInvocation := {
  command : option jstring;
  cleanPrompt : jstring;
  params : gmap jstring jsval
}.

Definition parseCommand (a : ModelAdapter) (prompt : jstring) : ParsedInvocation :=
  match match_commandRegex prompt with
  | None => {| command := None; cleanPrompt := prompt; params := ∅ |}
  | Some (fullMatch, command, rest) =>
      let commandName := resolve_alias a command in
      match commands a !! commandName with
      | None => {| command := None; cleanPrompt := prompt; params := ∅ |}
      | Some _ =>
          {| command := Some commandName;
             cleanPrompt := trim (replace fullMatch [] prompt);
             params := parseParameters a commandName (or_else rest []) |}
      end
  end.

End Base.

(** ** What the three adapters share *)

(** [Number.prototype.toString] belongs to the JavaScript runtime; the
    transforms only use it to print a numeric parameter into a template. *)
Class Runtime := { number_toString : Q → jstring }.

(** Truthiness. *)
Definition truthy (v : jsval) : bool :=
  match v with
  | JBool b => b
  | JNum q => negb (Qeq_bool q 0)
  | JStr s => negb (bool_decide (s = []))
  end.

(** [x || d] on values; a missing property is [undefined]. *)
Definition val_or_else (x : option jsval) (d : jsval) : jsval :=
  match x with
  | Some v => if truthy v then v else d
  | None => d
  end.

(** The string that a template literal prints for a value. *)
Definition to_string {runtime : Runtime} (v : jsval) : jstring :=
  match v with
  | JBool true => js "true"
  | JBool false => js "false"
  | JNum q => number_toString q
  | JStr s => s
  end.

Definition nl : jstring := [10].
Definition dq : jstring := [34].

(** The lines of a template literal, joined by line feeds. *)
Fixpoint join_lines (ls : list jstring) : jstring :=
  match ls with
  | [] => []
  | [l] => l
  | l :: ls' => l ++ nl ++ join_lines ls'
  end.

(** A request on the wire. *)
Record Message := { role : jstring; content : jstring }.

Record RequestBody := {
  body_model : jstring;
  body_messages : list Message;
  body_max_tokens : jsval;
  body_temperature : jsval;
  body_enable_thinking : option jsval;
  body_presence_penalty : option jsval;
  body_frequency_penalty : option jsval
}.

Record HttpRequest := {
  url : jstring;
  body : RequestBody;
  headers : list (jstring * jstring)
}.

(** What comes back.  [response.data] is what axios makes of the body: the
    value that [JSON.parse] gives or, when the body is not JSON, its text.
    A number is the finite double of [JSON.parse], as a rational.  The type
    is nested in the type of lists and is only ever taken apart by cases, so
    that no induction principle is asked for. *)
#[local] Unset Elimination Schemes.
Inductive JSON :=
| JsonNull
| JsonBool (b : bool)
| JsonNumber (q : Q)
| JsonString (s : jstring)
| JsonArray (items : list JSON)
| JsonObject (members : list (jstring * JSON)).
#[local] Set Elimination Schemes.

Inductive HttpOutcome :=
| Rejected (message : jstring)   (* no response, or a status outside 2xx *)
| Resolved (data : JSON).

(** A value read from the body is an [option JSON]: [None] is [undefined].
    The own property [key] of a parsed object: of two members of the same
    name, [JSON.parse] keeps the later one. *)
Definition own_property (key : jstring) (members : list (jstring * JSON)) : option JSON :=
  last (omap (λ m, if bool_decide (m.1 = key) then Some m.2 else None) members).

(** The message of the [TypeError] of a property read on [undefined] or
    [null]; the wording is the one of V8. *)
Definition type_error (what key : string) : jstring :=
  js "Cannot read properties of " ++ js what ++ js " (reading '" ++ js key ++ js "')".

(** The two property reads of the sources: by one of the names [content],
    [choices], [message], [text] and [thinking_content], which no prototype
    defines, and by the index 0. *)
Inductive Access := Named (key : string) | Zeroth.

(** [v.key]: the own property of an object, [undefined] on any other value,
    and a [TypeError] on [undefined] and [null]. *)
Definition get_named (key : string) (v : option JSON) : jstring + option JSON :=
  match v with
  | None => inl (type_error "undefined" key)
  | Some JsonNull => inl (type_error "null" key)
  | Some (JsonObject members) => inr (own_property (js key) members)
  | Some _ => inr None
  end.

(** [v[0]]: the first item of an array, the first code unit of a string, the
    own property [0] of an object. *)
Definition get_zeroth (v : option JSON) : jstring + option JSON :=
  match v with
  | None => inl (type_error "undefined" "0")
  | Some JsonNull => inl (type_error "null" "0")
  | Some (JsonArray items) => inr (head items)
  | Some (JsonString s) => inr ((λ c, JsonString [c]) <$> head s)
  | Some (JsonObject members) => inr (own_property (js "0") members)
  | Some _ => inr None
  end.

Definition get (access : Access) (v : option JSON) : jstring + option JSON :=
  match access with
  | Named key => get_named key v
  | Zeroth => get_zeroth v
  end.

(** A chain of reads, as in [response.data.content[0].text]: the first read
    that throws ends it. *)
Fixpoint read_path (path : list Access) (v : option JSON) : jstring + option JSON :=
  match path with
  | [] => inr v
  | access :: path' =>
      match get access v with
      | inl message => inl message
      | inr v' => read_path path' v'
      end
  end.

(** Truthiness of a value read from the body. *)
Definition json_truthy (v : option JSON) : bool :=
  match v with
  | None | Some JsonNull => false
  | Some (JsonBool b) => b
  | Some (JsonNumber q) => negb (Qeq_bool q 0)
  | Some (JsonString s) => negb (bool_decide (s = []))
  | Some (JsonArray _) | Some (JsonObject _) => true
  end.

(** The string that a template literal or a concatenation makes of such a
    value: an array prints its items separated by commas, [null] among them
    as nothing, and every object prints the same text. *)
Fixpoint json_toString {runtime : Runtime} (v : JSON) : jstring :=
  match v with
  | JsonNull => js "null"
  | JsonBool true => js "true"
  | JsonBool false => js "false"
  | JsonNumber q => number_toString q
  | JsonString s => s
  | JsonArray items =>
      (fix join (items : list JSON) : jstring :=
         match items with
         | [] => []
         | item :: items' =>
             match item with JsonNull => [] | _ => json_toString item end
             ++ match items' with [] => [] | _ :: _ => js "," ++ join items' end
         end) items
  | JsonObject _ => js "[object Object]"
  end.

Definition value_toString {runtime : Runtime} (v : option JSON) : jstring :=
  match v with
  | None => js "undefined"
  | Some j => json_toString j
  end.

(** Everything the program takes from outside. *)
Record World := {
  axios_post : HttpRequest → HttpOutcome;
  random_anonymousId : jstring;
  random_sessionId : jstring;
  now_toISOString : jstring
}.

(** The [messages] array of the three [executePrompt]. *)
Definition messages_of (transformed : TransformedPrompt) : list Message :=
  (match systemPrompt transformed with
   | Some (c :: s) => [ {| role := js "system"; content := c :: s |} ]
   | _ => []
   end)
  ++ [ {| role := js "user"; content := userPrompt transformed |} ].

(** [transformed.modelParameters?.key]. *)
Definition model_parameter (transformed : TransformedPrompt) (key : string) : option jsval :=
  mp ← modelParameters transformed; mp !! js key.

(** An object literal of model parameters, its properties in source order. *)
Definition object (props : list (string * jsval)) : gmap jstring jsval :=
  foldl (λ o kv, <[js kv.1 := kv.2]> o) ∅ props.

(** The [catch] clause: a new [Error] that names the provider. *)
Definition tagged (providerName : string) (message : jstring) : jstring :=
  js "Failed to execute " ++ js providerName ++ js " prompt: " ++ message.

(** ** [src/adapters/claude.ts] *)

Module Claude.
Section Claude.
Context {runtime : Runtime}.
Variable a : ModelAdapter.

Definition transformThink (prompt : jstring) (o : TransformOptions) : TransformedPrompt :=
  let systemPrompt :=
      join_lines
        [ or_else (Some (to_systemPrompt o)) [];
          js "For this response, I'd like you to engage your deepest analytical "
          ++ js "capabilities. Please think step by step through this problem, considering "
          ++ js "multiple perspectives and potential approaches. Take your time to develop a "
          ++ js "comprehensive, nuanced understanding before providing your final answer." ] in
  {| systemPrompt := Some systemPrompt;
     userPrompt := prompt;
     modelParameters := Some (object
       [ ("temperature", JNum (Qmax 0.1 (temperature a - 0.2)));
         ("enable_thinking", JBool true) ]) |}.

Definition transformFast (prompt : jstring) (o : TransformOptions) : TransformedPrompt :=
  let systemPrompt :=
      join_lines
        [ or_else (Some (to_systemPrompt o)) [];
          js "Please provide a brief, direct response to this question. Focus on the most "
          ++ js "important information and keep your answer concise and to the point." ] in
  {| systemPrompt := Some systemPrompt;
     userPrompt := prompt;
     modelParameters := Some (object
       [ ("temperature", JNum (Qmin 1.0 (temperature a + 0.1)));
         ("max_tokens", JNum (Qmin (maxTokens a) 1024));
         ("enable_thinking", JBool false) ]) |}.

Definition transformLoop (prompt : jstring) (o : TransformOptions) : TransformedPrompt :=
  let iterations := val_or_else (to_parameters o !! js "iterations") (JNum 3) in
  let systemPrompt :=
      join_lines
        [ or_else (Some (to_systemPrompt o)) [];
          js "Please approach this task using an iterative process. Follow these steps:";
          [];
          js "1. Develop an initial response to the prompt.";
          js "2. Critically review your response, identifying areas for improvement.";
          js "3. Create an improved version based on your critique.";
          js "4. Repeat steps 2-3 for a total of " ++ to_string iterations ++ js " iterations.";
          js "5. Present your final response, which should reflect the accumulated "
          ++ js "improvements.";
          [];
          js "Show all iterations in your response, clearly labeled." ] in
  {| systemPrompt := Some systemPrompt;
     userPrompt := prompt;
     modelParameters := Some (object
       [ ("temperature", JNum (temperature a));
         ("max_tokens", JNum (maxTokens a)) ]) |}.

Definition transformReflect (prompt : jstring) (o : TransformOptions) : TransformedPrompt :=
  let systemPrompt :=
      join_lines
        [ or_else (Some (to_systemPrompt o)) [];
          js "For this response, I'd like you to engage in two distinct phases:";
          [];
          js "1. First, respond to the user's query directly.";
          js "2. Then, reflect on your own response by considering:";
          js "   - What assumptions did you make in your answer?";
          js "   - What perspectives or viewpoints might be underrepresented?";
          js "   - What limitations exist in your approach or knowledge?";
          js "   - How might your response be improved or expanded?";
          [];
          js "Clearly separate these two phases in your response." ] in
  {| systemPrompt := Some systemPrompt;
     userPrompt := prompt;
     modelParameters := Some (object
       [ ("temperature", JNum (Qmax 0.1 (temperature a - 0.1)));
         ("enable_thinking", JBool true) ]) |}.

Definition transformCollapse (prompt : jstring) (o : TransformOptions) : TransformedPrompt :=
  {| systemPrompt := Some (or_else (Some (to_systemPrompt o)) []);
     userPrompt := prompt;
     modelParameters := Some (object
       [ ("temperature", JNum (temperature a));
         ("max_tokens", JNum (maxTokens a));
         ("enable_thinking", JBool false) ]) |}.

Definition transformFork (prompt : jstring) (o : TransformOptions) : TransformedPrompt :=
  let count := val_or_else (to_parameters o !! js "count") (JNum 2) in
  let systemPrompt :=
      join_lines
        [ or_else (Some (to_systemPrompt o)) [];
          js "Please provide " ++ to_string count
          ++ js " distinct alternative responses to this prompt. These alternatives should "
          ++ js "represent fundamentally different approaches or perspectives, not minor "
          ++ js "variations. Label each alternative clearly." ] in
  {| systemPrompt := Some systemPrompt;
     userPrompt := prompt;
     modelParameters := Some (object
       [ ("temperature", JNum (Qmin 1.0 (temperature a + 0.2)));
         ("max_tokens", JNum (maxTokens a)) ]) |}.

Definition request (transformed : TransformedPrompt) : HttpRequest :=
  {| url := baseURL a ++ js "/v1/messages";
     body :=
       {| body_model := model a;
          body_messages := messages_of transformed;
          body_max_tokens :=
            val_or_else (model_parameter transformed "max_tokens") (JNum (maxTokens a));
          body_temperature :=
            val_or_else (model_parameter transformed "temperature") (JNum (temperature a));
          body_enable_thinking := model_parameter transformed "enable_thinking";
          body_presence_penalty := None;
          body_frequency_penalty := None |};
     headers :=
       [ (js "Content-Type", js "application/json");
         (js "x-api-key", apiKey a);
         (js "anthropic-version", js "2023-06-01") ] |}.

(** [executePrompt]: what the [try] block returns, or the error of the
    [catch] clause.  The value returned is the one found in the body,
    whatever it is. *)
Definition executePrompt (w : World) (transformed : TransformedPrompt)
    : jstring + option JSON :=
  match axios_post w (request transformed) with
  | Rejected message => inl (tagged "Claude" message)
  | Resolved data =>
      match read_path [Named "content"; Zeroth; Named "text"] (Some data) with
      | inl message => inl (tagged "Claude" message)
      | inr text => inr text
      end
  end.

End Claude.
End Claude.

(** ** [src/adapters/openai.ts] *)

Module OpenAI.
Section OpenAI.
Context {runtime : Runtime}.
Variable a : ModelAdapter.

Definition transformThink (prompt : jstring) (o : TransformOptions) : TransformedPrompt :=
  let systemPrompt :=
      join_lines
        [ or_else (Some (to_systemPrompt o)) [];
          js "When responding to this query, please use the following approach:";
          js "1. Take a deep breath and think step-by-step about the problem";
          js "2. Break down complex aspects into simpler components";
          js "3. Consider multiple perspectives and approaches";
          js "4. Identify potential misconceptions or errors in reasoning";
          js "5. Synthesize your analysis into a comprehensive response";
          js "6. Structure your thinking process visibly with clear sections:";
          js "   a. Initial Analysis";
          js "   b. Detailed Exploration";
          js "   c. Synthesis and Conclusion" ] in
  {| systemPrompt := Some systemPrompt;
     userPrompt := prompt;
     modelParameters := Some (object
       [ ("temperature", JNum (Qmax 0.1 (temperature a - 0.2)));
         ("max_tokens", JNum (maxTokens a)) ]) |}.

Definition transformFast (prompt : jstring) (o : TransformOptions) : TransformedPrompt :=
  let systemPrompt :=
      join_lines
        [ or_else (Some (to_systemPrompt o)) [];
          js "Please provide a concise, direct response. Focus only on the most essential "
          ++ js "information needed to answer the query. Keep explanations minimal and "
          ++ js "prioritize brevity over comprehensiveness." ] in
  {| systemPrompt := Some systemPrompt;
     userPrompt := prompt;
     modelParameters := Some (object
       [ ("temperature", JNum (Qmin 1.0 (temperature a + 0.1)));
         ("max_tokens", JNum (Qmin (maxTokens a) 1024));
         ("presence_penalty", JNum 1.0);
         ("frequency_penalty", JNum 1.0) ]) |}.

Definition transformLoop (prompt : jstring) (o : TransformOptions) : TransformedPrompt :=
  let iterations := val_or_else (to_parameters o !! js "iterations") (JNum 3) in
  let systemPrompt :=
      join_lines
        [ or_else (Some (to_systemPrompt o)) [];
          js "Please approach this task using an iterative refinement process with "
          ++ to_string iterations ++ js " cycles:";
          [];
          js "1. Initial Version: Create your first response to the query";
          js "2. Critical Review: Analyze the strengths and weaknesses of your response";
          js "3. Improved Version: Create an enhanced version addressing the identified "
          ++ js "issues";
          js "4. Repeat steps 2-3 for each iteration";
          js "5. Final Version: Provide your most refined response";
          [];
          js "Clearly label each iteration (e.g., " ++ dq ++ js "Iteration 1" ++ dq ++ js ", " ++ dq
          ++ js "Critique 1" ++ dq ++ js ", etc.) in your response." ] in
  {| systemPrompt := Some systemPrompt;
     userPrompt := prompt;
     modelParameters := Some (object
       [ ("temperature", JNum (temperature a));
         ("max_tokens", JNum (maxTokens a)) ]) |}.

Definition transformReflect (prompt : jstring) (o : TransformOptions) : TransformedPrompt :=
  let systemPrompt :=
      join_lines
        [ or_else (Some (to_systemPrompt o)) [];
          js "For this query, please structure your response in two distinct parts:";
          [];
          js "PART 1: DIRECT RESPONSE";
          js "Provide your primary answer to the user's query.";
          [];
          js "PART 2: META-REFLECTION";
          js "Then, engage in critical reflection on your own response by addressing:";
          js "- What assumptions did you make in your answer?";
          js "- What alternative perspectives might be valid?";
          js "- What are the limitations of your response?";
          js "- How might your response be improved?";
          js "- What cognitive biases might have influenced your thinking?";
          [];
          js "Make sure both parts are clearly labeled and distinguishable." ] in
  {| systemPrompt := Some systemPrompt;
     userPrompt := prompt;
     modelParameters := Some (object
       [ ("temperature", JNum (Qmax 0.1 (temperature a - 0.1)));
         ("max_tokens", JNum (maxTokens a)) ]) |}.

Definition transformCollapse (prompt : jstring) (o : TransformOptions) : TransformedPrompt :=
  {| systemPrompt := Some (or_else (Some (to_systemPrompt o)) []);
     userPrompt := prompt;
     modelParameters := Some (object
       [ ("temperature", JNum (temperature a));
         ("max_tokens", JNum (maxTokens a)) ]) |}.

Definition transformFork (prompt : jstring) (o : TransformOptions) : TransformedPrompt :=
  let count := val_or_else (to_parameters o !! js "count") (JNum 2) in
  let systemPrompt :=
      join_lines
        [ or_else (Some (to_systemPrompt o)) [];
          js "Please provide " ++ to_string count
          ++ js " substantively different responses to this prompt. Each alternative should "
          ++ js "represent a different approach, perspective, or framework. Clearly label each "
          ++ js "alternative (e.g., " ++ dq ++ js "Alternative 1" ++ dq ++ js ", " ++ dq
          ++ js "Alternative 2" ++ dq ++ js ", etc.)." ] in
  {| systemPrompt := Some systemPrompt;
     userPrompt := prompt;
     modelParameters := Some (object
       [ ("temperature", JNum (Qmin 1.0 (temperature a + 0.2)));
         ("max_tokens", JNum (maxTokens a)) ]) |}.

Definition request (transformed : TransformedPrompt) : HttpRequest :=
  {| url := baseURL a ++ js "/v1/chat/completions";
     body :=
       {| body_model := model a;
          body_messages := messages_of transformed;
          body_max_tokens :=
            val_or_else (model_parameter transformed "max_tokens") (JNum (maxTokens a));
          body_temperature :=
            val_or_else (model_parameter transformed "temperature") (JNum (temperature a));
          body_enable_thinking := None;
          body_presence_penalty := model_parameter transformed "presence_penalty";
          body_frequency_penalty := model_parameter transformed "frequency_penalty" |};
     headers :=
       [ (js "Content-Type", js "application/json");
         (js "Authorization", js "Bearer " ++ apiKey a) ] |}.

Definition executePrompt (w : World) (transformed : TransformedPrompt)
    : jstring + option JSON :=
  match axios_post w (request transformed) with
  | Rejected message => inl (tagged "OpenAI" message)
  | Resolved data =>
      match read_path [Named "choices"; Zeroth; Named "message"; Named "content"]
              (Some data) with
      | inl message => inl (tagged "OpenAI" message)
      | inr text => inr text
      end
  end.

End OpenAI.
End OpenAI.

(** ** [src/adapters/qwen.ts] *)

Module Qwen.
Section Qwen.
Context {runtime : Runtime}.
Variable a : ModelAdapter.

Definition transformThink (prompt : jstring) (o : TransformOptions) : TransformedPrompt :=
  {| systemPrompt := Some (or_else (Some (to_systemPrompt o)) []);
     userPrompt :=
       if ends_with (js "/think") (trim prompt) then prompt else prompt ++ js " /think";
     modelParameters := Some (object
       [ ("temperature", JNum (Qmax 0.1 (temperature a - 0.2)));
         ("enable_thinking", JBool true) ]) |}.

Definition transformFast (prompt : jstring) (o : TransformOptions) : TransformedPrompt :=
  let systemPrompt :=
      join_lines
        [ or_else (Some (to_systemPrompt o)) [];
          js "Provide brief, direct responses. Focus on essential information only." ] in
  {| systemPrompt := Some systemPrompt;
     userPrompt :=
       if ends_with (js "/no_think") (trim prompt) then prompt else prompt ++ js " /no_think";
     modelParameters := Some (object
       [ ("temperature", JNum (Qmin 1.0 (temperature a + 0.1)));
         ("max_tokens", JNum (Qmin (maxTokens a) 1024));
         ("enable_thinking", JBool false) ]) |}.

Definition transformLoop (prompt : jstring) (o : TransformOptions) : TransformedPrompt :=
  let iterations := val_or_else (to_parameters o !! js "iterations") (JNum 3) in
  let systemPrompt :=
      join_lines
        [ or_else (Some (to_systemPrompt o)) [];
          js "Please use an iterative approach with " ++ to_string iterations
          ++ js " refinement cycles:";
          js "1. Initial response";
          js "2. Critical review";
          js "3. Improvement";
          js "4. Repeat steps 2-3 for a total of " ++ to_string iterations ++ js " iterations";
          js "5. Present your final response with all iterations clearly labeled" ] in
  {| systemPrompt := Some systemPrompt;
     userPrompt := prompt;
     modelParameters := Some (object
       [ ("temperature", JNum (temperature a));
         ("enable_thinking", JBool true) ]) |}.

Definition transformReflect (prompt : jstring) (o : TransformOptions) : TransformedPrompt :=
  let systemPrompt :=
      join_lines
        [ or_else (Some (to_systemPrompt o)) [];
          js "For this response, please:";
          js "1. Answer the query directly";
          js "2. Then reflect on your answer by analyzing:";
          js "   - Assumptions made";
          js "   - Alternative perspectives";
          js "   - Limitations in your approach";
          js "   - Potential improvements" ] in
  {| systemPrompt := Some systemPrompt;
     userPrompt := prompt ++ js " /think";
     modelParameters := Some (object
       [ ("temperature", JNum (Qmax 0.1 (temperature a - 0.1)));
         ("enable_thinking", JBool true) ]) |}.

Definition transformCollapse (prompt : jstring) (o : TransformOptions) : TransformedPrompt :=
  {| systemPrompt := Some (or_else (Some (to_systemPrompt o)) []);
     userPrompt := prompt ++ js " /no_think";
     modelParameters := Some (object
       [ ("temperature", JNum (temperature a));
         ("max_tokens", JNum (maxTokens a));
         ("enable_thinking", JBool false) ]) |}.

Definition transformFork (prompt : jstring) (o : TransformOptions) : TransformedPrompt :=
  let count := val_or_else (to_parameters o !! js "count") (JNum 2) in
  let systemPrompt :=
      join_lines
        [ or_else (Some (to_systemPrompt o)) [];
          js "Please provide " ++ to_string count
          ++ js " distinct alternative responses to this prompt, representing different "
          ++ js "approaches or perspectives. Label each alternative clearly." ] in
  {| systemPrompt := Some systemPrompt;
     userPrompt := prompt;
     modelParameters := Some (object
       [ ("temperature", JNum (Qmin 1.0 (temperature a + 0.2)));
         ("max_tokens", JNum (maxTokens a));
         ("enable_thinking", JBool true) ]) |}.

Definition request (transformed : TransformedPrompt) : HttpRequest :=
  {| url := baseURL a ++ js "/v1/chat/completions";
     body :=
       {| body_model := model a;
          body_messages := messages_of transformed;
          body_max_tokens :=
            val_or_else (model_parameter transformed "max_tokens") (JNum (maxTokens a));
          body_temperature :=
            val_or_else (model_parameter transformed "temperature") (JNum (temperature a));
          body_enable_thinking := model_parameter transformed "enable_thinking";
          body_presence_penalty := None;
          body_frequency_penalty := None |};
     headers :=
       [ (js "Content-Type", js "application/json");
         (js "Authorization", js "Bearer " ++ apiKey a) ] |}.

(** [executePrompt]: the value returned is a string, the concatenation of
    the thinking block, if any, and of what is found in the body. *)
Definition executePrompt (w : World) (transformed : TransformedPrompt)
    : jstring + option JSON :=
  match axios_post w (request transformed) with
  | Rejected message => inl (tagged "Qwen" message)
  | Resolved data =>
      match get_named "thinking_content" (Some data) with
      | inl message => inl (tagged "Qwen" message)
      | inr thinking =>
          let content :=
              if json_truthy thinking
              then js "<thinking>" ++ nl ++ value_toString thinking ++ nl
                   ++ js "</thinking>" ++ nl ++ nl
              else [] in
          match read_path [Named "choices"; Zeroth; Named "message"; Named "content"]
                  (Some data) with
          | inl message => inl (tagged "Qwen" message)
          | inr text => inr (Some (JsonString (content ++ value_toString text)))
          end
      end
  end.

End Qwen.
End Qwen.

(** ** The abstract methods of [ModelAdapter], resolved by class *)

Section Dispatch.
Context {runtime : Runtime}.

Definition transformThink (a : ModelAdapter) :=
  match adapterClass a with
  | ClaudeAdapter => Claude.transformThink a
  | OpenAIAdapter => OpenAI.transformThink a
  | QwenAdapter => Qwen.transformThink a
  end.

Definition transformFast (a : ModelAdapter) :=
  match adapterClass a with
  | ClaudeAdapter => Claude.transformFast a
  | OpenAIAdapter => OpenAI.transformFast a
  | QwenAdapter => Qwen.transformFast a
  end.

Definition transformLoop (a : ModelAdapter) :=
  match adapterClass a with
  | ClaudeAdapter => Claude.transformLoop a
  | OpenAIAdapter => OpenAI.transformLoop a
  | QwenAdapter => Qwen.transformLoop a
  end.

Definition transformReflect (a : ModelAdapter) :=
  match adapterClass a with
  | ClaudeAdapter => Claude.transformReflect a
  | OpenAIAdapter => OpenAI.transformReflect a
  | QwenAdapter => Qwen.transformReflect a
  end.

Definition transformCollapse (a : ModelAdapter) :=
  match adapterClass a with
  | ClaudeAdapter => Claude.transformCollapse a
  | OpenAIAdapter => OpenAI.transformCollapse a
  | QwenAdapter => Qwen.transformCollapse a
  end.

Definition transformFork (a : ModelAdapter) :=
  match adapterClass a with
  | ClaudeAdapter => Claude.transformFork a
  | OpenAIAdapter => OpenAI.transformFork a
  | QwenAdapter => Qwen.transformFork a
  end.

Definition executePrompt (a : ModelAdapter) :=
  match adapterClass a with
  | ClaudeAdapter => Claude.executePrompt a
  | OpenAIAdapter => OpenAI.executePrompt a
  | QwenAdapter => Qwen.executePrompt a
  end.

(** The name in the error of the [catch] clause of [executePrompt]. *)
Definition providerName (a : ModelAdapter) : string :=
  match adapterClass a with
  | ClaudeAdapter => "Claude"
  | OpenAIAdapter => "OpenAI"
  | QwenAdapter => "Qwen"
  end.

(** Calling the [transform] of a command. *)
Definition run_transform (a : ModelAdapter) (t : Transform)
    (prompt : jstring) (o : TransformOptions) : jstring + TransformedPrompt :=
  match t with
  | TransformThink => inr (transformThink a prompt o)
  | TransformFast => inr (transformFast a prompt o)
  | TransformLoop => inr (transformLoop a prompt o)
  | TransformReflect => inr (transformReflect a prompt o)
  | TransformCollapse => inr (transformCollapse a prompt o)
  | TransformFork => inr (transformFork a prompt o)
  | TransformCustom f => f prompt o
  end.

(** The input of [generate]. *)
Record GenerateOptions := {
  prompt : jstring;
  input_systemPrompt : option jstring
}.

(** [ModelAdapter.generate], first half: the constant [transformed].
    [inl] is a rejection of the transform; [inr None] is the [undefined] that
    the optional call gives when the command is not in the map. *)
Definition transformed (a : ModelAdapter) (input : GenerateOptions)
    : jstring + option TransformedPrompt :=
  let systemPrompt := default [] (input_systemPrompt input) in
  let parsed := Base.parseCommand a (prompt input) in
  match Base.command parsed with
  | Some (c :: cs) =>
      match commands a !! (c :: cs) with
      | Some cmd =>
          match run_transform a (transform cmd) (Base.cleanPrompt parsed)
                  {| to_systemPrompt := systemPrompt;
                     to_parameters := Base.params parsed;
                     to_options := options a |} with
          | inl e => inl e
          | inr t => inr (Some t)
          end
      | None => inr None
      end
  | _ =>
      inr (Some {| systemPrompt := Some systemPrompt;
                   userPrompt := prompt input;
                   modelParameters := None |})
  end.

(** [ModelAdapter.generate].  [executePrompt(undefined)] throws inside its
    [try] block when it reads [transformed.systemPrompt]; the message of that
    [TypeError] is the one of V8. *)
Definition generate (a : ModelAdapter) (w : World) (input : GenerateOptions)
    : jstring + option JSON :=
  match transformed a input with
  | inl e => inl e
  | inr (Some t) => executePrompt a w t
  | inr None =>
      inl (tagged (providerName a)
             (js "Cannot read properties of undefined (reading 'systemPrompt')"))
  end.

End Dispatch.

(** The constructors of the three subclasses: [super(apiKey, options)], which
    registers the built-in commands, and then the four fields. *)
Definition default_baseURL (c : AdapterClass) : jstring :=
  match c with
  | ClaudeAdapter => js "https://api.anthropic.com"
  | OpenAIAdapter => js "https://api.openai.com"
  | QwenAdapter => js "https://api.qwen.ai"
  end.

Definition default_model (c : AdapterClass) : jstring :=
  match c with
  | ClaudeAdapter => js "claude-3-opus-20240229"
  | OpenAIAdapter => js "gpt-4"
  | QwenAdapter => js "qwen3-30b-a3b"
  end.

Definition new_adapter (c : AdapterClass) (key : jstring) (opts : AdapterOptions)
    : ModelAdapter :=
  Base.registerCoreCommands
    {| adapterClass := c; apiKey := key; options := opts;
       commands := ∅; aliasMap := ∅;
       baseURL := or_else (opt_baseURL opts) (default_baseURL c);
       model := or_else (opt_model opts) (default_model c);
       maxTokens := num_or_else (opt_maxTokens opts) 4096;
       temperature := num_or_else (opt_temperature opts) 0.7 |}.

(** ** [src/index.ts] *)

Module UniversalLLM.

Record UniversalLLMOptions := {
  provider : jstring;
  key : jstring;
  adapterOptions : AdapterOptions
}.

Record SymbolicTelemetry := {
  enabled : bool;
  endpoint : jstring;
  anonymousId : jstring;
  sessionId : jstring
}.

Record t := {
  adapter : ModelAdapter;
  telemetry : SymbolicTelemetry;
  sessionCommands : gmap jstring N
}.

(** [createAdapter]: [inl] is the thrown error. *)
Definition createAdapter (options : UniversalLLMOptions) : jstring + ModelAdapter :=
  if bool_decide (provider options = js "anthropic") then
    inr (new_adapter ClaudeAdapter (key options) (adapterOptions options))
  else if bool_decide (provider options = js "openai") then
    inr (new_adapter OpenAIAdapter (key options) (adapterOptions options))
  else if bool_decide (provider options = js "qwen") then
    inr (new_adapter QwenAdapter (key options) (adapterOptions options))
  else inl (js "Unsupported provider: " ++ provider options).

(** The constructor. *)
Definition new (w : World) (options : UniversalLLMOptions) : jstring + t :=
  match createAdapter options with
  | inl e => inl e
  | inr a =>
      let o := adapterOptions options in
      inr {| adapter := a;
             telemetry :=
               {| enabled := negb (bool_decide (opt_telemetryEnabled o = Some false));
                  endpoint := or_else (opt_telemetryEndpoint o)
                    (js "https://telemetry.universal-developer.org/v1/events");
                  anonymousId := or_else (opt_anonymousId o) (random_anonymousId w);
                  sessionId := or_else (opt_sessionId o) (random_sessionId w) |};
             sessionCommands := ∅ |}
  end.

Definition with_adapter (f : t) (a : ModelAdapter) : t :=
  {| adapter := a; telemetry := telemetry f; sessionCommands := sessionCommands f |}.

(** [registerCommand(name, command)]: the object [{ name, ...command }]. *)
Definition registerCommand (n : jstring) (d : jstring) (als : option (list jstring))
    (ps : option (list ParameterDeclaration)) (tr : Transform) (f : t) : t :=
  with_adapter f
    (Base.registerCommand
       {| name := n; description := d; aliases := als; parameters := ps; transform := tr |}
       (adapter f)).

(** [trackCommandUsage]. *)
Definition trackCommandUsage (command : jstring) (f : t) : t :=
  let currentCount := default 0 (sessionCommands f !! command) in
  {| adapter := adapter f; telemetry := telemetry f;
     sessionCommands := <[command := currentCount + 1]> (sessionCommands f) |}.

Definition getCommandUsageStats (f : t) : gmap jstring N := sessionCommands f.

Definition setTelemetryEnabled (b : bool) (f : t) : t :=
  {| adapter := adapter f;
     telemetry := {| enabled := b; endpoint := endpoint (telemetry f);
                     anonymousId := anonymousId (telemetry f);
                     sessionId := sessionId (telemetry f) |};
     sessionCommands := sessionCommands f |}.

(** [options.prompt.match(r)], where [r] is a slash at the start and one or
    more characters of [[a-zA-Z0-9_]]: group 1. *)
Definition leading_token (prompt : jstring) : option jstring :=
  match prompt with
  | c :: s =>
      if c =? Base.slash then
        match take_while is_word s with
        | [] => None
        | d :: command => Some (d :: command)
        end
      else None
  | [] => None
  end.

(** What [sendTelemetry] posts. *)
Record TelemetryEvent := {
  ev_endpoint : jstring;
  ev_event : jstring;
  ev_command : jstring;
  ev_provider : jstring;
  ev_timestamp : jstring;
  ev_prompt_length : nat;
  ev_anonymousId : jstring;
  ev_sessionId : jstring
}.

(** [constructor.name.replace('Adapter', '').toLowerCase()]. *)
Definition telemetry_provider (a : ModelAdapter) : jstring :=
  match adapterClass a with
  | ClaudeAdapter => js "claude"
  | OpenAIAdapter => js "openai"
  | QwenAdapter => js "qwen"
  end.

(** [sendTelemetry]: the events posted (none or one); the answer to the post
    is not looked at and a failure of it is swallowed. *)
Definition sendTelemetry (w : World) (f : t) (command prompt : jstring)
    : list TelemetryEvent :=
  if negb (enabled (telemetry f)) || bool_decide (endpoint (telemetry f) = []) then []
  else [ {| ev_endpoint := endpoint (telemetry f);
            ev_event := js "symbolic_command_used";
            ev_command := command;
            ev_provider := telemetry_provider (adapter f);
            ev_timestamp := now_toISOString w;
            ev_prompt_length := length prompt;
            ev_anonymousId := anonymousId (telemetry f);
            ev_sessionId := sessionId (telemetry f) |} ].

(** One call of [generate]: what the caller gets ([inl] is the error
    thrown), the facade afterwards, and the telemetry posted. *)
Record Outcome := {
  response : jstring + option JSON;
  after : t;
  posted : list TelemetryEvent
}.

Definition generate {runtime : Runtime} (w : World) (f : t) (options : GenerateOptions) : Outcome :=
  let command := leading_token (prompt options) in
  let f1 := match command with
            | Some (c :: cs) => trackCommandUsage (c :: cs) f
            | _ => f
            end in
  match generate (adapter f1) w options with
  | inl e => {| response := inl e; after := f1; posted := [] |}
  | inr text =>
      {| response := inr text; after := f1;
         posted := match command with
                   | Some (c :: cs) =>
                       if enabled (telemetry f1)
                       then sendTelemetry w f1 (c :: cs) (prompt options)
                       else []
                   | _ => []
                   end |}
  end.

End UniversalLLM.

(** * Vocabulary of the statements *)

Import Base.

(** The prompt begins with the marker and the token [name]: [name] is the
    whole run of token characters that follows the slash. *)
Definition begins_with_token (prompt name : jstring) : Prop :=
  ∃ rest, prompt = slash :: name ++ rest
          ∧ name ≠ []
          ∧ forallb is_word name = true
          ∧ match rest with [] => True | c :: _ => is_word c = false end.

(** The two forms of a parameter token. *)
Definition kv_token (n v : jstring) : jstring := dash :: dash :: n ++ equals :: v.
Definition bare_token (n : jstring) : jstring := dash :: dash :: n.

(** A parameter name: one or more characters of [[a-zA-Z0-9_]]; a value: one
    or more characters that are not white space. *)
Definition is_name (n : jstring) : bool :=
  negb (bool_decide (n = [])) && forallb is_word n.
Definition is_value (v : jstring) : bool :=
  negb (bool_decide (v = [])) && forallb not_space v.

(** Tokens are separated by white space: a token may start after [pre] when
    [pre] is empty or ends in white space, and it ends before [post] when
    [post] is empty or starts with white space. *)
Definition token_start (pre : jstring) : bool :=
  match last pre with None => true | Some c => is_space c end.
Definition token_end (post : jstring) : bool :=
  match head post with None => true | Some c => is_space c end.

(** The value that a list of matches gives to [n]: the one of the last match
    with that name. *)
Definition last_binding (n : jstring) (ms : list (jstring * jsval)) : option jsval :=
  last (omap (λ m, if bool_decide (m.1 = n) then Some m.2 else None) ms).

(** The value that a parameter string supplies for [n], if any. *)
Definition supplied (n : jstring) (paramString : jstring) : option jsval :=
  last_binding n (exec_all 0 paramString).

(** The default declared for [n]: the one of the last declaration of that
    name that carries a default. *)
Definition declared_default (ps : list ParameterDeclaration) (n : jstring) : option jsval :=
  last (omap (λ p, if bool_decide (pname p = n) then pdefault p else None) ps).

(** The facades that a program can hold: a constructed one, and what the
    public methods make of it. *)
Inductive reachable {runtime : Runtime} : UniversalLLM.t → Prop :=
| reachable_new w options f :
    UniversalLLM.new w options = inr f → reachable f
| reachable_registerCommand n d als ps tr f :
    reachable f → reachable (UniversalLLM.registerCommand n d als ps tr f)
| reachable_setTelemetryEnabled b f :
    reachable f → reachable (UniversalLLM.setTelemetryEnabled b f)
| reachable_generate w f input :
    reachable f → reachable (UniversalLLM.after (UniversalLLM.generate w f input)).

(** ** Data of the examples *)

(** A runtime for the examples; it prints the integers, which is what the
    defaults of the built-in commands are. *)
Definition integer_runtime : Runtime :=
  {| number_toString q := js (pretty (Qnum q)) |}.

Definition no_options : AdapterOptions :=
  {| opt_model := None; opt_maxTokens := None; opt_temperature := None;
     opt_baseURL := None; opt_telemetryEnabled := None; opt_telemetryEndpoint := None;
     opt_anonymousId := None; opt_sessionId := None |}.

Definition with_temperature (q : Q) : AdapterOptions :=
  {| opt_model := None; opt_maxTokens := None; opt_temperature := Some q;
     opt_baseURL := None; opt_telemetryEnabled := None; opt_telemetryEndpoint := None;
     opt_anonymousId := None; opt_sessionId := None |}.

Definition no_transform_options : TransformOptions :=
  {| to_systemPrompt := []; to_parameters := ∅; to_options := no_options |}.

(** A body that carries the text "Paris" the way each of the three providers
    does. *)
Definition paris : JSON :=
  JsonObject
    [ (js "content", JsonArray [ JsonObject [ (js "type", JsonString (js "text"));
                                              (js "text", JsonString (js "Paris")) ] ]);
      (js "choices",
       JsonArray [ JsonObject [ (js "message",
                                 JsonObject [ (js "role", JsonString (js "assistant"));
                                              (js "content", JsonString (js "Paris")) ]) ] ]) ].

(** A world where every request fails, one where every request is answered
    by a page that is not JSON, and one where every request is answered with
    the same text. *)
Definition offline : World :=
  {| axios_post := λ _, Rejected (js "Network Error");
     random_anonymousId := js "k2f9x0q1w8e7"; random_sessionId := js "lq3z9x1abcd";
     now_toISOString := js "2025-01-01T00:00:00.000Z" |}.



Definition online : World :=
  {| axios_post := λ _, Resolved paris;
     random_anonymousId := js "k2f9x0q1w8e7"; random_sessionId := js "lq3z9x1abcd";
     now_toISOString := js "2025-01-01T00:00:00.000Z" |}.

Definition options_for (p : string) : UniversalLLM.UniversalLLMOptions :=
  {| UniversalLLM.provider := js p; UniversalLLM.key := js "sk-test";
     UniversalLLM.adapterOptions := no_options |}.

(** The facade that [new UniversalLLM({ provider, apiKey: "sk-test" })] makes
    in these worlds, for the provider of the class [c]. *)
Definition fresh_facade (c : AdapterClass) : UniversalLLM.t :=
  {| UniversalLLM.adapter := new_adapter c (js "sk-test") no_options;
     UniversalLLM.telemetry :=
       {| UniversalLLM.enabled := true;
          UniversalLLM.endpoint := js "https://telemetry.universal-developer.org/v1/events";
          UniversalLLM.anonymousId := js "k2f9x0q1w8e7";
          UniversalLLM.sessionId := js "lq3z9x1abcd" |};
     UniversalLLM.sessionCommands := ∅ |}.

Definition ask (p : string) : GenerateOptions :=
  {| prompt := js p; input_systemPrompt := None |}.

(** ** Vocabulary of the further properties *)

(** The request that [executePrompt] posts, by class. *)
Definition request_of (a : ModelAdapter) (transformed : TransformedPrompt) : HttpRequest :=
  match adapterClass a with
  | ClaudeAdapter => Claude.request a transformed
  | OpenAIAdapter => OpenAI.request a transformed
  | QwenAdapter => Qwen.request a transformed
  end.

(** Where the text of the answer sits in the body, by class. *)
Definition text_path (a : ModelAdapter) : list Access :=
  match adapterClass a with
  | ClaudeAdapter => [Named "content"; Zeroth; Named "text"]
  | OpenAIAdapter | QwenAdapter => [Named "choices"; Zeroth; Named "message"; Named "content"]
  end.




(** The thinking block that the Qwen adapter puts before the text. *)
Definition thinking_block {runtime : Runtime} (thinking : option JSON) : jstring :=
  if json_truthy thinking
  then js "<thinking>" ++ nl ++ value_toString thinking ++ nl ++ js "</thinking>" ++ nl ++ nl
  else [].

(** What [executePrompt] reads in the response, by class. *)
Definition read_text {runtime : Runtime} (a : ModelAdapter) (data : JSON)
    : jstring + option JSON :=
  match adapterClass a with
  | ClaudeAdapter | OpenAIAdapter => read_path (text_path a) (Some data)
  | QwenAdapter =>
      match get_named "thinking_content" (Some data) with
      | inl message => inl message
      | inr thinking =>
          match read_path (text_path a) (Some data) with
          | inl message => inl message
          | inr text =>
              inr (Some (JsonString (thinking_block thinking ++ value_toString text)))
          end
      end
  end.

(** What [executePrompt] makes of the answer to its request. *)
Definition outcome_of {runtime : Runtime} (a : ModelAdapter) (answer : HttpOutcome)
    : jstring + option JSON :=
  match answer with
  | Rejected message => inl (tagged (providerName a) message)
  | Resolved data =>
      match read_text a data with
      | inl message => inl (tagged (providerName a) message)
      | inr text => inr text
      end
  end.

(** The built-in transforms, as opposed to the function of a caller. *)
Definition is_builtin (t : Transform) : bool :=
  match t with TransformCustom _ => false | _ => true end.

(** The aliases of a command, none when the field is missing. *)
Definition aliases_of (cmd : SymbolicCommand) : list jstring :=
  default [] (aliases cmd).

(** The names that a list of declarations gives a default to. *)
Definition defaulted_names (ps : list ParameterDeclaration) : list jstring :=
  omap (λ p, match pdefault p with Some _ => Some (pname p) | None => None end) ps.

(** Calls of [generate] one after the other, each in its own world: the
    facade at the end. *)
Fixpoint after_calls {runtime : Runtime} (f : UniversalLLM.t)
    (calls : list (World * GenerateOptions)) : UniversalLLM.t :=
  match calls with
  | [] => f
  | (w, input) :: calls' =>
      after_calls (UniversalLLM.after (UniversalLLM.generate w f input)) calls'
  end.

(** How many of the calls have a prompt that begins with the token [c]. *)
Definition calls_with_token (c : jstring) (calls : list (World * GenerateOptions)) : N :=
  N.of_nat (length (filter (λ call, UniversalLLM.leading_token (prompt call.2) = Some c) calls)).

(** ** [src/cli.ts]: how the sub-commands assemble the prompt

    The action of each sub-command ([ud think], [ud loop], ...) reads its
    argument, the piped input and its options, assembles a prompt and calls
    [generate]; the assembly is the part that is embedded. *)
Module Cli.

Definition symbolicCommands : list (jstring * jstring) :=
  [ (js "think", js "Generate response using deep reasoning");
    (js "fast", js "Generate quick, concise response");
    (js "loop", js "Generate iteratively refined response");
    (js "reflect", js "Generate response with self-reflection");
    (js "fork", js "Generate multiple alternative responses");
    (js "collapse", js "Generate response using default behavior") ].

(** [x] is truthy: a string that is there and not empty. *)
Definition given (x : option jstring) : option jstring :=
  match x with
  | Some (c :: s) => Some (c :: s)
  | _ => None
  end.

(** The prompt argument combined with the piped input. *)
Definition combine (promptArg pipedInput : option jstring) : jstring :=
  let prompt := or_else promptArg [] in
  match given pipedInput with
  | Some piped =>
      match prompt with
      | [] => piped
      | _ :: _ => prompt ++ nl ++ nl ++ piped
      end
  | None => prompt
  end.

(** The prompt handed to [generate]; [None] when the action exits with
    "Prompt is required". *)
Definition fullPrompt (cmd_name : jstring) (iterations count : option jstring)
    (promptArg pipedInput : option jstring) : option jstring :=
  match combine promptArg pipedInput with
  | [] => None
  | c :: s =>
      let commandString := slash :: cmd_name in
      let commandString :=
          match bool_decide (cmd_name = js "loop"), given iterations with
          | true, Some i => commandString ++ js " --iterations=" ++ i
          | _, _ =>
              match bool_decide (cmd_name = js "fork"), given count with
              | true, Some n => commandString ++ js " --count=" ++ n
              | _, _ => commandString
              end
          end in
      Some (commandString ++ js " " ++ (c :: s))
  end.

End Cli.

(** A command of a caller for the examples, with an alias and a declared
    parameter; its transform passes the prompt on. *)
Definition debate_command : SymbolicCommand :=
  {| name := js "debate";
     description := js "Generate a balanced debate with arguments for both sides";
     aliases := Some [js "argue"];
     parameters := Some [ {| pname := js "format";
                             pdescription := js "Format for the debate output";
                             prequired := Some false;
                             pdefault := Some (JStr (js "point-counterpoint")) |} ];
     transform := TransformCustom (λ prompt o,
       inr {| systemPrompt := Some (to_systemPrompt o);
              userPrompt := prompt;
              modelParameters := Some (object [("temperature", JNum 0.7)]) |}) |}.

(** A second command of a caller, whose name is the alias of the first. *)
Definition argue_command : SymbolicCommand :=
  {| name := js "argue";
     description := js "Argue one side only";
     aliases := None;
     parameters := None;
     transform := TransformCustom (λ prompt o,
       inr {| systemPrompt := Some (js "Argue in favour."); userPrompt := prompt;
              modelParameters := None |}) |}.

(** * Verification *)

(** ** Strings and character classes *)

Section StringLemmas.

Lemma take_drop_while p s : take_while p s ++ drop_while p s = s.
Proof. induction s as [|c s IH]; simpl; [done|]. destruct (p c); simpl; congruence. Qed.

Lemma take_while_all p s : forallb p s = true → take_while p s = s.
Proof.
  induction s as [|c s IH]; simpl; [done|].
  intros [-> Hs]%andb_true_iff. by rewrite IH.
Qed.

Lemma drop_while_all p s : forallb p s = true → drop_while p s = [].
Proof.
  induction s as [|c s IH]; simpl; [done|].
  intros [-> Hs]%andb_true_iff. by apply IH.
Qed.

(** A run of the class followed by a character outside it. *)
Lemma take_while_app_stop p s c t :
  forallb p s = true → p c = false → take_while p (s ++ c :: t) = s.
Proof.
  induction s as [|d s IH]; simpl; intros Hs Hc; [by rewrite Hc|].
  apply andb_true_iff in Hs as [-> Hs]. by rewrite IH.
Qed.

Lemma drop_while_app_stop p s c t :
  forallb p s = true → p c = false → drop_while p (s ++ c :: t) = c :: t.
Proof.
  induction s as [|d s IH]; simpl; intros Hs Hc; [by rewrite Hc|].
  apply andb_true_iff in Hs as [-> Hs]. by apply IH.
Qed.

(** A character outside the class, anywhere: what lies after it is not seen. *)
Lemma take_while_app_cut p s c t :
  p c = false → take_while p (s ++ c :: t) = take_while p s.
Proof.
  intros Hc. induction s as [|d s IH]; simpl; [by rewrite Hc|].
  destruct (p d); [by rewrite IH|done].
Qed.

Lemma drop_while_app_cut p s c t :
  p c = false → drop_while p (s ++ c :: t) = drop_while p s ++ c :: t.
Proof.
  intros Hc. induction s as [|d s IH]; simpl; [by rewrite Hc|].
  by destruct (p d).
Qed.

Lemma take_while_app_all p s t :
  forallb p s = true → take_while p (s ++ t) = s ++ take_while p t.
Proof.
  induction s as [|c s IH]; simpl; [done|].
  intros [-> Hs]%andb_true_iff. by rewrite IH.
Qed.

Lemma drop_while_app_all p s t :
  forallb p s = true → drop_while p (s ++ t) = drop_while p t.
Proof.
  induction s as [|c s IH]; simpl; [done|].
  intros [-> Hs]%andb_true_iff. by apply IH.
Qed.

Lemma forallb_drop_while q p s :
  forallb q s = true → forallb q (drop_while p s) = true.
Proof.
  induction s as [|c s IH]; simpl; [done|].
  intros [Hc Hs]%andb_true_iff. destruct (p c); [by apply IH|].
  simpl. by rewrite Hc, Hs.
Qed.

Lemma take_while_length p s : (length (take_while p s) ≤ length s)%nat.
Proof. induction s as [|c s IH]; simpl; [lia|]. destruct (p c); simpl; lia. Qed.

Lemma forallb_take_while p s : forallb p (take_while p s) = true.
Proof.
  induction s as [|c s IH]; simpl; [done|].
  destruct (p c) eqn:E; simpl; [by rewrite E|done].
Qed.

Lemma drop_while_head p s c t : drop_while p s = c :: t → p c = false.
Proof.
  induction s as [|d s IH]; simpl; [done|].
  destruct (p d) eqn:E; [done|]. by intros [= <- _].
Qed.

Lemma starts_with_app pat s : starts_with pat (pat ++ s) = true.
Proof. induction pat as [|c pat IH]; simpl; [done|]. by rewrite N.eqb_refl. Qed.

(** Replacing a prefix of the string removes that prefix. *)
Lemma replace_prefix pat repl s : replace pat repl (pat ++ s) = repl ++ s.
Proof.
  destruct pat as [|c pat]; destruct s as [|d s]; simpl;
    rewrite ?N.eqb_refl, ?starts_with_app; simpl;
    by rewrite ?drop_app_length, ?app_nil_r, ?drop_all.
Qed.

Lemma trim_nil : trim [] = [].
Proof. done. Qed.

Lemma space_not_word c : is_space c = true → is_word c = false.
Proof.
  unfold is_space, is_word. intros Hs.
  repeat (apply orb_true_iff in Hs as [Hs|Hs]);
    try apply andb_true_iff in Hs as [?%N.leb_le ?%N.leb_le];
    try apply N.eqb_eq in Hs;
    repeat (apply orb_false_iff; split); try apply andb_false_iff;
    rewrite ?N.leb_gt, ?N.eqb_neq; lia.
Qed.

Lemma space_not_dash c : is_space c = true → (c =? Base.dash) = false.
Proof.
  unfold is_space, Base.dash. intros Hs. apply N.eqb_neq. intros ->. done.
Qed.

Lemma space_not_equals c : is_space c = true → (c =? Base.equals) = false.
Proof.
  unfold is_space, Base.equals. intros Hs. apply N.eqb_neq. intros ->. done.
Qed.

End StringLemmas.

(** ** The command parser *)

Lemma take_while_token name rest :
  forallb is_word name = true →
  match rest with [] => True | c :: _ => is_word c = false end →
  take_while is_word (name ++ rest) = name
  ∧ drop_while is_word (name ++ rest) = rest.
Proof.
  intros Hn Hr. destruct rest as [|c rest].
  - rewrite app_nil_r. split; [by apply take_while_all | by apply drop_while_all].
  - split; [by apply take_while_app_stop | by apply drop_while_app_stop].
Qed.

Lemma match_commandRegex_token prompt name :
  begins_with_token prompt name →
  ∃ fullMatch rest, match_commandRegex prompt = Some (fullMatch, name, rest).
Proof.
  intros (rest & -> & Hne & Hw & Hr). unfold match_commandRegex.
  rewrite N.eqb_refl.
  destruct (take_while_token name rest Hw Hr) as [-> ->].
  destruct name as [|c name]; [done|].
  destruct (take_while is_space rest); eauto.
Qed.

Lemma match_commandRegex_no_token prompt :
  (∀ name, ¬ begins_with_token prompt name) → match_commandRegex prompt = None.
Proof.
  intros Hno. destruct prompt as [|c s]; [done|]. simpl.
  destruct (c =? slash) eqn:Hc; [|done]. apply N.eqb_eq in Hc as ->.
  destruct (take_while is_word s) as [|d name] eqn:Ht; [done|].
  exfalso. apply (Hno (d :: name)). exists (drop_while is_word s).
  rewrite <- Ht, take_drop_while. repeat split.
  - by rewrite Ht.
  - apply forallb_take_while.
  - destruct (drop_while is_word s) eqn:Hd; [done|]. by eapply drop_while_head.
Qed.

(** The whole match is a prefix of the prompt; when group 2 took part, it
    runs to the end of its line. *)
Lemma match_commandRegex_prefix prompt fullMatch command rest :
  match_commandRegex prompt = Some (fullMatch, command, rest) →
  ∃ tail, prompt = fullMatch ++ tail
          ∧ (is_Some rest → match tail with [] => True | c :: _ => c = 10 end).
Proof.
  unfold match_commandRegex. destruct prompt as [|c s]; [done|].
  destruct (c =? slash); [|done].
  pose proof (take_drop_while is_word s) as Hs.
  destruct (take_while is_word s) as [|d name]; [done|].
  set (s1 := drop_while is_word s) in *.
  pose proof (take_drop_while is_space s1) as Hs1.
  destruct (take_while is_space s1) as [|e ws].
  - intros [= <- <- <-]. exists s1. split; [by rewrite <- Hs|]. by intros [? [=]].
  - set (s2 := drop_while is_space s1) in *.
    pose proof (take_drop_while not_newline s2) as Hs2.
    intros [= <- <- <-]. exists (drop_while not_newline s2). split.
    + assert (s = (d :: name) ++ (e :: ws) ++ take_while not_newline s2
                    ++ drop_while not_newline s2) as Hsplit
        by by rewrite Hs2, Hs1, Hs.
      rewrite Hsplit at 1. simpl. rewrite <- app_assoc. simpl. by rewrite <- app_assoc.
    + intros _. destruct (drop_while not_newline s2) as [|x t] eqn:Hd; [done|].
      apply drop_while_head in Hd. unfold not_newline in Hd.
      apply negb_false_iff, N.eqb_eq in Hd. done.
Qed.

(** The clean prompt: what follows the whole match, trimmed. *)
Lemma parseCommand_resolved a prompt fullMatch command rest cmd :
  match_commandRegex prompt = Some (fullMatch, command, rest) →
  commands a !! resolve_alias a command = Some cmd →
  parseCommand a prompt =
    {| Base.command := Some (resolve_alias a command);
       cleanPrompt := trim (drop (length fullMatch) prompt);
       params := parseParameters a (resolve_alias a command) (or_else rest []) |}.
Proof.
  intros Hm Hc. unfold parseCommand. rewrite Hm, Hc.
  destruct (match_commandRegex_prefix _ _ _ _ Hm) as (tail & -> & _).
  by rewrite replace_prefix, drop_app_length.
Qed.

(** On a prompt of one line, a command token followed by white space leaves
    nothing: the whole match of [commandRegex] covers the line. *)
Lemma match_commandRegex_single_line name ws text :
  name ≠ [] → forallb is_word name = true →
  ws ≠ [] → forallb is_space ws = true →
  forallb not_newline text = true →
  match_commandRegex (slash :: name ++ ws ++ text)
  = Some (slash :: name ++ ws ++ text, name, Some (drop_while is_space text)).
Proof.
  intros Hn Hw Hs Hsp Ht. unfold match_commandRegex. rewrite N.eqb_refl.
  destruct ws as [|e ws]; [done|]. clear Hs.
  assert (is_word e = false) as He.
  { apply space_not_word. simpl in Hsp. by apply andb_true_iff in Hsp as [? _]. }
  rewrite <- app_comm_cons.
  rewrite (take_while_app_stop is_word name e (ws ++ text)) by done.
  rewrite (drop_while_app_stop is_word name e (ws ++ text)) by done.
  destruct name as [|c name]; [done|].
  rewrite (app_comm_cons ws text e).
  rewrite (take_while_app_all is_space (e :: ws) text) by done.
  rewrite (drop_while_app_all is_space (e :: ws) text) by done.
  rewrite (take_while_all not_newline (drop_while is_space text))
    by by apply forallb_drop_while.
  simpl. rewrite <- (app_assoc ws), take_drop_while. done.
Qed.

Lemma parseCommand_single_line a name ws text cmd :
  name ≠ [] → forallb is_word name = true →
  ws ≠ [] → forallb is_space ws = true →
  forallb not_newline text = true →
  commands a !! resolve_alias a name = Some cmd →
  parseCommand a (slash :: name ++ ws ++ text)
  = {| Base.command := Some (resolve_alias a name);
       cleanPrompt := [];
       params := parseParameters a (resolve_alias a name)
                   (or_else (Some (drop_while is_space text)) []) |}.
Proof.
  intros Hn Hw Hs Hsp Ht Hc.
  rewrite (parseCommand_resolved a _ _ _ _ cmd
             (match_commandRegex_single_line name ws text Hn Hw Hs Hsp Ht) Hc).
  by rewrite drop_all.
Qed.

(** C1.  On the prompt "/think hello world" the parser of every freshly
    constructed adapter resolves the command [think] with an empty parameter
    mapping, and the clean prompt it returns is the empty string: the whole
    match of [commandRegex], which [replace] removes, runs to the end of the
    line.  (The claim expects "hello world".) *)
Theorem parseCommand_think_hello_world (c : AdapterClass) (k : jstring) (o : AdapterOptions) :
  parseCommand (new_adapter c k o) (js "/think hello world")
  = {| Base.command := Some (js "think"); cleanPrompt := []; params := ∅ |}.
Proof. by vm_compute. Qed.

(** The other example of the documentation: the parameter is found, as the
    string "5", and here too nothing is left of the prompt. *)
Lemma parseCommand_loop_improve_this (c : AdapterClass) (k : jstring) (o : AdapterOptions) :
  parseCommand (new_adapter c k o) (js "/loop --iterations=5 improve this")
  = {| Base.command := Some (js "loop"); cleanPrompt := [];
       params := {[ js "iterations" := JStr (js "5") ]} |}.
Proof. by vm_compute. Qed.

Lemma parseCommand_unresolved a prompt :
  (∀ name, ¬ begins_with_token prompt name)
  ∨ (∃ name, begins_with_token prompt name
             ∧ commands a !! resolve_alias a name = None) →
  parseCommand a prompt
  = {| Base.command := None; cleanPrompt := prompt; params := ∅ |}.
Proof.
  unfold parseCommand. intros [Hno | (name & Htok & Hnone)].
  - by rewrite match_commandRegex_no_token.
  - destruct (match_commandRegex_token _ _ Htok) as (fm & rest & ->).
    by rewrite Hnone.
Qed.

(** Without a command, [generate] takes the second branch of its
    conditional. *)
Lemma generate_no_command {runtime : Runtime} a w input :
  Base.command (parseCommand a (prompt input)) = None →
  generate a w input
  = executePrompt a w
      {| systemPrompt := Some (default [] (input_systemPrompt input));
         userPrompt := prompt input;
         modelParameters := None |}.
Proof. intros Hp. unfold generate, transformed. by rewrite Hp. Qed.

(** C2.  A prompt that does not begin with a slash and a token, or whose
    token does not resolve in the registry, is parsed to no command, itself
    as the clean prompt and the empty parameter mapping; and [generate] hands
    the prompt, as it is and with the system prompt of the caller, to
    [executePrompt]. *)
Theorem unresolved_prompt_unchanged {runtime : Runtime}
    (a : ModelAdapter) (w : World) (input : GenerateOptions) :
  (∀ name, ¬ begins_with_token (prompt input) name)
  ∨ (∃ name, begins_with_token (prompt input) name
             ∧ commands a !! resolve_alias a name = None) →
  parseCommand a (prompt input)
  = {| Base.command := None; cleanPrompt := prompt input; params := ∅ |}
  ∧ generate a w input
    = executePrompt a w
        {| systemPrompt := Some (default [] (input_systemPrompt input));
           userPrompt := prompt input;
           modelParameters := None |}.
Proof.
  intros Hcase. pose proof (parseCommand_unresolved a _ Hcase) as Hp.
  split; [done|]. apply generate_no_command. by rewrite Hp.
Qed.

Lemma unresolved_prompt_unchanged_witness :
  parseCommand (new_adapter ClaudeAdapter [] no_options) (js "/unknowncmd hi")
  = {| Base.command := None; cleanPrompt := js "/unknowncmd hi"; params := ∅ |}
  ∧ generate (runtime := integer_runtime) (new_adapter ClaudeAdapter [] no_options)
      offline (ask "/unknowncmd hi")
    = executePrompt (runtime := integer_runtime)
        (new_adapter ClaudeAdapter [] no_options) offline
        {| systemPrompt := Some []; userPrompt := js "/unknowncmd hi";
           modelParameters := None |}.
Proof.
  apply (unresolved_prompt_unchanged (runtime := integer_runtime)
           (new_adapter ClaudeAdapter [] no_options) offline (ask "/unknowncmd hi")).
  right. exists (js "unknowncmd"). split; [|by vm_compute].
  exists (js " hi"). by vm_compute.
Defined.

(** ** Construction *)

Lemma new_inv w options f :
  UniversalLLM.new w options = inr f →
  ∃ c, UniversalLLM.adapter f
       = new_adapter c (UniversalLLM.key options) (UniversalLLM.adapterOptions options).
Proof.
  unfold UniversalLLM.new, UniversalLLM.createAdapter.
  repeat case_bool_decide; intros [= <-]; eauto.
Qed.

Lemma commands_new_adapter c k o :
  commands (new_adapter c k o)
  = <[js "fork" := core_command "fork" "Generate multiple alternative responses"
                     (Some [count_parameter]) TransformFork]>
    (<[js "collapse" := core_command "collapse" "Return to default behavior"
                          None TransformCollapse]>
    (<[js "reflect" := core_command "reflect" "Trigger meta-analysis of outputs"
                         None TransformReflect]>
    (<[js "loop" := core_command "loop" "Enable iterative refinement cycles"
                      (Some [iterations_parameter]) TransformLoop]>
    (<[js "fast" := core_command "fast" "Optimize for low-latency responses"
                      None TransformFast]>
    (<[js "think" := core_command "think" "Activate extended reasoning pathways"
                       None TransformThink]> ∅))))).
Proof. done. Qed.

Lemma aliasMap_new_adapter c k o : aliasMap (new_adapter c k o) = ∅.
Proof. done. Qed.

(** C3.  After the construction of a facade the registry of its adapter
    holds exactly the six built-in commands, each under its own name and
    reached by its token (there is no alias); [loop] declares the one
    parameter [iterations] with default 3 and [fork] the one parameter [count]
    with default 2. *)
Theorem builtin_commands (w : World) (options : UniversalLLM.UniversalLLMOptions)
    (f : UniversalLLM.t) :
  UniversalLLM.new w options = inr f →
  let a := UniversalLLM.adapter f in
  dom (commands a)
  = {[ js "think"; js "fast"; js "loop"; js "reflect"; js "collapse"; js "fork" ]}
  ∧ (∀ token cmd, commands a !! token = Some cmd → name cmd = token)
  ∧ (∀ token, token ∈ dom (commands a) →
       resolve_alias a token = token ∧ is_Some (commands a !! resolve_alias a token))
  ∧ (∃ cmd p, commands a !! js "loop" = Some cmd ∧ parameters cmd = Some [p]
              ∧ pname p = js "iterations" ∧ pdefault p = Some (JNum 3))
  ∧ (∃ cmd p, commands a !! js "fork" = Some cmd ∧ parameters cmd = Some [p]
              ∧ pname p = js "count" ∧ pdefault p = Some (JNum 2)).
Proof.
  intros Hnew a. destruct (new_inv _ _ _ Hnew) as [c Ha]. subst a. rewrite Ha.
  split; [|split; [|split; [|split]]].
  - rewrite commands_new_adapter, !dom_insert_L, dom_empty_L. set_solver.
  - rewrite commands_new_adapter. intros token cmd.
    rewrite !lookup_insert. repeat case_decide; intros [= <-]; by subst.
  - intros token Hin. unfold resolve_alias. rewrite aliasMap_new_adapter, lookup_empty.
    split; [done|]. by apply elem_of_dom.
  - eexists _, _. rewrite commands_new_adapter. by vm_compute.
  - eexists _, _. rewrite commands_new_adapter. by vm_compute.
Qed.

Lemma builtin_commands_witness :
  ∃ f, UniversalLLM.new offline (options_for "qwen") = inr f
       ∧ dom (commands (UniversalLLM.adapter f))
         = {[ js "think"; js "fast"; js "loop"; js "reflect"; js "collapse"; js "fork" ]}.
Proof.
  eexists. split; [reflexivity|].
  apply (builtin_commands offline (options_for "qwen")). reflexivity.
Defined.

(** C8.  A provider identifier other than "anthropic", "openai" and "qwen"
    makes the constructor throw "Unsupported provider: " followed by the
    identifier, so that no facade exists on which [generate] could be called;
    each of the three identifiers gives a facade that holds one adapter, of
    the class of that provider. *)
Theorem unsupported_provider (w : World) (options : UniversalLLM.UniversalLLMOptions) :
  let p := UniversalLLM.provider options in
  let k := UniversalLLM.key options in
  let o := UniversalLLM.adapterOptions options in
  (p ≠ js "anthropic" → p ≠ js "openai" → p ≠ js "qwen" →
     UniversalLLM.new w options = inl (js "Unsupported provider: " ++ p))
  ∧ (p = js "anthropic" →
       ∃ f, UniversalLLM.new w options = inr f
            ∧ UniversalLLM.adapter f = new_adapter ClaudeAdapter k o)
  ∧ (p = js "openai" →
       ∃ f, UniversalLLM.new w options = inr f
            ∧ UniversalLLM.adapter f = new_adapter OpenAIAdapter k o)
  ∧ (p = js "qwen" →
       ∃ f, UniversalLLM.new w options = inr f
            ∧ UniversalLLM.adapter f = new_adapter QwenAdapter k o).
Proof.
  intros p k o. unfold UniversalLLM.new, UniversalLLM.createAdapter. fold p k o.
  repeat split.
  - intros H1 H2 H3. by rewrite !bool_decide_eq_false_2.
  - intros ->. eexists. by split.
  - intros ->. eexists. by split.
  - intros ->. eexists. by split.
Qed.

Lemma unsupported_provider_witness :
  UniversalLLM.new offline (options_for "gemini") = inl (js "Unsupported provider: gemini")
  ∧ ∃ f, UniversalLLM.new offline (options_for "openai") = inr f
         ∧ UniversalLLM.adapter f = new_adapter OpenAIAdapter (js "sk-test") no_options.
Proof.
  split.
  - by apply (unsupported_provider offline (options_for "gemini")).
  - by apply (unsupported_provider offline (options_for "openai")).
Defined.

(** ** The parameter scanner *)

Lemma match_paramRegex_here_cut s w t :
  is_space w = true →
  match_paramRegex_here (s ++ w :: t) = match_paramRegex_here s.
Proof.
  intros Hw.
  pose proof (space_not_dash w Hw) as Hd.
  pose proof (space_not_equals w Hw) as He.
  pose proof (space_not_word w Hw) as Hword.
  assert (not_space w = false) as Hns by (unfold not_space; by rewrite Hw).
  destruct s as [|d1 [|d2 s0]]; simpl.
  - rewrite Hd. by destruct t.
  - by rewrite Hd, andb_false_r.
  - destruct ((d1 =? dash) && (d2 =? dash)); [|done].
    rewrite take_while_app_cut, drop_while_app_cut by done.
    destruct (take_while is_word s0) as [|c name]; [done|].
    destruct (drop_while is_word s0) as [|e s1]; simpl.
    + by rewrite He.
    + by rewrite take_while_app_cut.
Qed.

Lemma match_paramRegex_here_length s n v len :
  match_paramRegex_here s = Some (n, v, len) → (1 ≤ len ≤ length s)%nat.
Proof.
  destruct s as [|d1 [|d2 s0]]; simpl; try done.
  destruct ((d1 =? dash) && (d2 =? dash)); [|done].
  pose proof (take_drop_while is_word s0) as Hs0.
  destruct (take_while is_word s0) as [|c name]; [done|].
  destruct (drop_while is_word s0) as [|e s1].
  - intros [= <- <- <-]. rewrite <- Hs0, app_nil_r. simpl. lia.
  - pose proof (take_while_length not_space s1) as Hlen.
    destruct ((e =? equals) && negb (bool_decide (take_while not_space s1 = [])));
      intros [= <- <- <-]; rewrite <- Hs0; simpl; rewrite length_app; simpl; lia.
Qed.

Lemma match_paramRegex_here_space w t :
  is_space w = true → match_paramRegex_here (w :: t) = None.
Proof.
  intros Hw. change (w :: t) with ([] ++ w :: t).
  by rewrite match_paramRegex_here_cut.
Qed.

Lemma exec_all_cons k c s :
  exec_all k (c :: s)
  = match k with
    | S k' => exec_all k' s
    | O => match match_paramRegex_here (c :: s) with
           | Some (paramName, paramValue, len) =>
               (paramName, paramValue) :: exec_all (pred len) s
           | None => exec_all 0 s
           end
    end.
Proof. done. Qed.

(** Once the previous match has consumed the rest of the string, the loop
    ends. *)
Lemma exec_all_consumed k s : (length s ≤ k)%nat → exec_all k s = [].
Proof.
  revert k. induction s as [|c s IH]; intros k Hk; [done|].
  simpl in Hk. destruct k as [|k]; [lia|]. rewrite exec_all_cons. apply IH. lia.
Qed.

(** No match crosses white space: the matches of a string are those found
    before a white space character and those found after it. *)
Lemma exec_all_cut k s w t :
  is_space w = true → (k ≤ length s)%nat →
  exec_all k (s ++ w :: t) = exec_all k s ++ exec_all 0 t.
Proof.
  intros Hw. revert k. induction s as [|c s IH]; intros k Hk.
  - simpl in Hk. assert (k = 0%nat) as -> by lia.
    rewrite app_nil_l, exec_all_cons. by rewrite match_paramRegex_here_space.
  - simpl in Hk. rewrite <- app_comm_cons, !exec_all_cons.
    destruct k as [|k]; [|apply IH; lia].
    rewrite (app_comm_cons s (w :: t) c), match_paramRegex_here_cut by done.
    destruct (match_paramRegex_here (c :: s)) as [[[n v] len]|] eqn:Hm.
    + apply match_paramRegex_here_length in Hm. simpl in Hm.
      rewrite IH by lia. done.
    + by rewrite IH by lia.
Qed.

(** A token between white space is scanned on its own. *)
Lemma exec_all_token pre tok post :
  token_start pre = true → token_end post = true →
  exec_all 0 (pre ++ tok ++ post)
  = exec_all 0 pre ++ exec_all 0 tok ++ exec_all 0 post.
Proof.
  intros Hpre Hpost.
  assert (exec_all 0 (tok ++ post) = exec_all 0 tok ++ exec_all 0 post) as Htail.
  { destruct post as [|w post]; [by rewrite !app_nil_r|].
    simpl in Hpost. rewrite exec_all_cut by (done || lia).
    f_equal. rewrite exec_all_cons. by rewrite match_paramRegex_here_space. }
  destruct (decide (pre = [])) as [->|Hne]; [done|].
  destruct (exists_last Hne) as (pre' & w & ->).
  unfold token_start in Hpre. rewrite last_snoc in Hpre.
  rewrite <- !app_assoc.
  change ([w] ++ tok ++ post) with (w :: tok ++ post).
  rewrite !exec_all_cut by (done || lia).
  by rewrite Htail, app_nil_r.
Qed.

Lemma exec_all_kv_token n v :
  is_name n = true → is_value v = true →
  exec_all 0 (kv_token n v) = [(n, JStr v)].
Proof.
  unfold is_name, is_value.
  intros [Hn Hw]%andb_true_iff [Hv Hs]%andb_true_iff.
  apply negb_true_iff, bool_decide_eq_false in Hn, Hv.
  unfold kv_token. rewrite exec_all_cons. unfold match_paramRegex_here.
  rewrite !N.eqb_refl. simpl andb. cbv iota.
  assert (is_word equals = false) as He by done.
  rewrite take_while_app_stop, drop_while_app_stop by done.
  rewrite take_while_all by done.
  destruct n as [|c n]; [done|]. rewrite N.eqb_refl.
  rewrite bool_decide_eq_false_2 by done. simpl andb. cbv iota.
  f_equal. apply exec_all_consumed. simpl. rewrite !length_app. simpl. lia.
Qed.

Lemma exec_all_bare_token n :
  is_name n = true → exec_all 0 (bare_token n) = [(n, JBool true)].
Proof.
  unfold is_name. intros [Hn Hw]%andb_true_iff.
  apply negb_true_iff, bool_decide_eq_false in Hn.
  unfold bare_token. rewrite exec_all_cons. unfold match_paramRegex_here.
  rewrite !N.eqb_refl. simpl andb. cbv iota.
  rewrite take_while_all, drop_while_all by done.
  destruct n as [|c n]; [done|].
  f_equal. apply exec_all_consumed. simpl. lia.
Qed.

(** A string without a dash has no match. *)
Lemma exec_all_no_dash k s :
  forallb (λ c, negb (c =? dash)) s = true → exec_all k s = [].
Proof.
  revert k. induction s as [|c s IH]; intros k Hs; [done|].
  simpl in Hs. apply andb_true_iff in Hs as [Hc Hs].
  rewrite exec_all_cons. destruct k as [|k]; [|by apply IH].
  assert (match_paramRegex_here (c :: s) = None) as ->; [|by apply IH].
  unfold match_paramRegex_here. destruct s as [|d s]; [done|].
  apply negb_true_iff in Hc. by rewrite Hc.
Qed.

(** ** The parameter mapping *)

Lemma last_binding_app n l1 l2 :
  last_binding n (l1 ++ l2)
  = match last_binding n l2 with Some v => Some v | None => last_binding n l1 end.
Proof. unfold last_binding. rewrite omap_app, last_app. by destruct (last _). Qed.

(** An assignment is seen under its key, unless the key is [__proto__],
    and under no other key. *)
Lemma set_property_lookup key v m n :
  set_property key v m !! n
  = if bool_decide (key = n) && negb (bool_decide (n = js "__proto__"))
    then Some v else m !! n.
Proof.
  unfold set_property. case_bool_decide as Hproto.
  - case_bool_decide as Hkey; [|done]. subst n.
    by rewrite bool_decide_eq_true_2.
  - rewrite lookup_insert. case_decide as Hkey.
    + subst n. by rewrite bool_decide_eq_true_2, bool_decide_eq_false_2.
    + by rewrite (bool_decide_eq_false_2 (key = n)).
Qed.

Lemma assign_all_cons m k v ms :
  assign_all m ((k, v) :: ms) = assign_all (set_property k v m) ms.
Proof. done. Qed.

Lemma assign_all_lookup m ms n :
  n ≠ js "__proto__" →
  assign_all m ms !! n
  = match last_binding n ms with Some v => Some v | None => m !! n end.
Proof.
  intros Hn. revert m. induction ms as [|[k v] ms IH]; intros m; [done|].
  rewrite assign_all_cons, IH. change ((k, v) :: ms) with ([(k, v)] ++ ms).
  rewrite last_binding_app. destruct (last_binding n ms); [done|].
  unfold last_binding. simpl. rewrite set_property_lookup.
  rewrite (bool_decide_eq_false_2 (n = js "__proto__")) by done.
  by case_bool_decide.
Qed.

(** No assignment reaches the key [__proto__]. *)
Lemma assign_all_proto m ms :
  assign_all m ms !! js "__proto__" = m !! js "__proto__".
Proof.
  revert m. induction ms as [|[k v] ms IH]; intros m; [done|].
  rewrite assign_all_cons, IH, set_property_lookup.
  by rewrite (bool_decide_eq_true_2 (js "__proto__" = js "__proto__")), andb_false_r.
Qed.

Lemma declared_default_app l1 l2 n :
  declared_default (l1 ++ l2) n
  = match declared_default l2 n with Some d => Some d | None => declared_default l1 n end.
Proof. unfold declared_default. rewrite omap_app, last_app. by destruct (last _). Qed.

Lemma set_defaults_fold (m : gmap jstring jsval) ps n :
  n ≠ js "__proto__" →
  foldl (λ params param,
           match pdefault param with
           | Some d => set_property (pname param) d params
           | None => params
           end) m ps !! n
  = match declared_default ps n with Some d => Some d | None => m !! n end.
Proof.
  intros Hn. revert m. induction ps as [|p ps IH]; intros m; [done|].
  simpl foldl. rewrite IH. change (p :: ps) with ([p] ++ ps).
  rewrite declared_default_app. destruct (declared_default ps n); [done|].
  unfold declared_default. simpl.
  destruct (pdefault p) as [d|]; simpl.
  - rewrite set_property_lookup.
    rewrite (bool_decide_eq_false_2 (n = js "__proto__")) by done.
    by case_bool_decide.
  - by case_bool_decide.
Qed.

Lemma set_defaults_lookup ps n :
  n ≠ js "__proto__" → set_defaults ps !! n = declared_default ps n.
Proof.
  intros Hn. unfold set_defaults. rewrite set_defaults_fold, lookup_empty by done.
  by destruct (declared_default ps n).
Qed.

Lemma set_defaults_proto_fold (m : gmap jstring jsval) ps :
  foldl (λ params param,
           match pdefault param with
           | Some d => set_property (pname param) d params
           | None => params
           end) m ps !! js "__proto__"
  = m !! js "__proto__".
Proof.
  revert m. induction ps as [|p ps IH]; intros m; [done|].
  simpl foldl. rewrite IH. destruct (pdefault p) as [d|]; [|done].
  rewrite set_property_lookup.
  by rewrite (bool_decide_eq_true_2 (js "__proto__" = js "__proto__")), andb_false_r.
Qed.

(** What [parseParameters] gives to a name, for a command that declares
    parameters: the value of the last match of that name, and without one the
    declared default. *)
Lemma parseParameters_lookup a c cmd ps s n :
  commands a !! c = Some cmd → parameters cmd = Some ps → ps ≠ [] →
  n ≠ js "__proto__" →
  parseParameters a c s !! n
  = match supplied n s with Some v => Some v | None => declared_default ps n end.
Proof.
  intros Hc Hps Hne Hn. unfold parseParameters. rewrite Hc, Hps.
  destruct ps as [|p ps]; [done|].
  by rewrite assign_all_lookup, set_defaults_lookup.
Qed.

(** The mapping never has the key [__proto__], whatever the declarations and
    the string. *)
Lemma parseParameters_proto a c s : parseParameters a c s !! js "__proto__" = None.
Proof.
  unfold parseParameters.
  destruct (commands a !! c) as [cmd|]; [|done].
  destruct (parameters cmd) as [[|p ps]|]; try done.
  rewrite assign_all_proto. unfold set_defaults. by rewrite set_defaults_proto_fold.
Qed.

Lemma parseParameters_no_declaration a c cmd s :
  commands a !! c = Some cmd →
  parameters cmd = None ∨ parameters cmd = Some [] →
  parseParameters a c s = ∅.
Proof. intros Hc [Hp|Hp]; unfold parseParameters; by rewrite Hc, Hp. Qed.

(** A well-formed token between white space supplies its value, unless a
    later match has the same name. *)
Lemma supplied_token pre tok post n v :
  token_start pre = true → token_end post = true →
  exec_all 0 tok = [(n, v)] → supplied n post = None →
  supplied n (pre ++ tok ++ post) = Some v.
Proof.
  intros Hpre Hpost Htok Hlater. unfold supplied in *.
  rewrite exec_all_token, !last_binding_app, Hlater, Htok by done.
  unfold last_binding. simpl. by rewrite bool_decide_eq_true_2.
Qed.

Lemma declared_default_undeclared ps n :
  n ∉ pname <$> ps → declared_default ps n = None.
Proof.
  intros Hn. unfold declared_default.
  replace (omap (λ p, if bool_decide (pname p = n) then pdefault p else None) ps)
    with ([] : list jsval); [done|].
  induction ps as [|p ps IH]; [done|]. simpl.
  rewrite fmap_cons, not_elem_of_cons in Hn. destruct Hn as [Hp Hn].
  rewrite bool_decide_eq_false_2 by done. by apply IH.
Qed.

(** When the declared names are distinct, the declared default of a name is
    the default of its declaration. *)
Lemma declared_default_NoDup ps p :
  NoDup (pname <$> ps) → p ∈ ps → declared_default ps (pname p) = pdefault p.
Proof.
  induction ps as [|q ps IH]; intros Hnd Hin; [by apply elem_of_nil in Hin|].
  rewrite fmap_cons in Hnd. apply NoDup_cons in Hnd as [Hq Hnd].
  change (q :: ps) with ([q] ++ ps). rewrite declared_default_app.
  apply elem_of_cons in Hin as [->|Hin].
  - rewrite declared_default_undeclared by done.
    unfold declared_default. simpl. rewrite bool_decide_eq_true_2 by done.
    by destruct (pdefault q).
  - rewrite IH by done. destruct (pdefault p) eqn:Hd; [done|].
    unfold declared_default. simpl. rewrite bool_decide_eq_false_2; [done|].
    intros Heq. apply Hq. rewrite Heq. by apply list_elem_of_fmap_2.
Qed.

(** C4.  On the prompt "/loop --iterations=4 --__proto__=x improve this"
    the parser of every freshly constructed adapter resolves [loop], which
    declares a parameter, and scans the rest of the line; the token
    [--__proto__=x] stands between white space, its name and its value are
    well formed and no later token has its name, and the scanner does match
    it.  Yet the mapping has no entry for it: it is the entry of
    [iterations] alone.  (The claim expects the name mapped to "x".)  The
    same holds of every adapter, command and string: no token and no default
    ever gives the mapping the key [__proto__]. *)
Theorem parseParameters_proto_dropped (c : AdapterClass) (k : jstring) (o : AdapterOptions) :
  let a := new_adapter c k o in
  let pre := js "--iterations=4 " in
  let post := js " improve this" in
  (∃ cmd, commands a !! js "loop" = Some cmd
          ∧ parameters cmd = Some [iterations_parameter])
  ∧ token_start pre = true ∧ token_end post = true
  ∧ is_name (js "__proto__") = true ∧ is_value (js "x") = true
  ∧ supplied (js "__proto__") post = None
  ∧ supplied (js "__proto__") (pre ++ kv_token (js "__proto__") (js "x") ++ post)
    = Some (JStr (js "x"))
  ∧ parseParameters a (js "loop") (pre ++ kv_token (js "__proto__") (js "x") ++ post)
    = {[ js "iterations" := JStr (js "4") ]}
  ∧ parseParameters a (js "loop") (pre ++ bare_token (js "__proto__") ++ post)
    = {[ js "iterations" := JStr (js "4") ]}
  ∧ params (parseCommand a (js "/loop --iterations=4 --__proto__=x improve this"))
    = {[ js "iterations" := JStr (js "4") ]}
  ∧ (∀ (a' : ModelAdapter) (c' s' : jstring),
       parseParameters a' c' s' !! js "__proto__" = None).
Proof.
  intros a pre post.
  split; [eexists; split; by vm_compute|].
  repeat (split; [by vm_compute|]).
  apply parseParameters_proto.
Qed.

(** C5, as the claim states it, fails: [think] declares no parameter, and
    for it [parseParameters] returns the empty object before it scans; the
    token [--foo=bar] is not captured. *)
Lemma undeclared_parameter_not_captured :
  let a := new_adapter ClaudeAdapter (js "sk-test") no_options in
  (∃ cmd, commands a !! js "think" = Some cmd ∧ parameters cmd = None)
  ∧ token_start [] = true ∧ token_end [] = true
  ∧ is_name (js "foo") = true ∧ is_value (js "bar") = true
  ∧ supplied (js "foo") [] = None
  ∧ parseParameters a (js "think") ([] ++ kv_token (js "foo") (js "bar") ++ []) !! js "foo"
    = None.
Proof.
  intros a. split; [eexists; split; by vm_compute|].
  repeat split; by vm_compute.
Qed.

(** C5, amended.  For a resolved command that declares at least one
    parameter, a token [--name=value] or [--name] whose name is not declared
    (and is not [__proto__], about which nothing is said here) is captured
    all the same, and a name that is neither declared nor supplied is absent;
    for a command that declares no parameter the mapping is empty whatever
    the parameter string. *)
Theorem parseParameters_undeclared (a : ModelAdapter) (c : jstring) (cmd : SymbolicCommand) :
  commands a !! c = Some cmd →
  (parameters cmd = None ∨ parameters cmd = Some [] →
     ∀ s, parseParameters a c s = ∅)
  ∧ (∀ ps, parameters cmd = Some ps → ps ≠ [] →
       ∀ pre n post,
         n ∉ pname <$> ps → n ≠ js "__proto__" →
         token_start pre = true → token_end post = true →
         is_name n = true → supplied n post = None →
         (∀ v, is_value v = true →
            parseParameters a c (pre ++ kv_token n v ++ post) !! n = Some (JStr v))
         ∧ parseParameters a c (pre ++ bare_token n ++ post) !! n = Some (JBool true)
         ∧ (∀ s, supplied n s = None → parseParameters a c s !! n = None)).
Proof.
  intros Hc. split.
  - intros Hno s. by eapply parseParameters_no_declaration.
  - intros ps Hps Hne pre n post Hundeclared Hproto Hpre Hpost Hn Hlater.
    pose proof (λ s, parseParameters_lookup a c cmd ps s n Hc Hps Hne Hproto) as Hlookup.
    split; [|split].
    + intros v Hv.
      rewrite Hlookup, (supplied_token pre _ post n (JStr v));
        auto using exec_all_kv_token.
    + rewrite Hlookup, (supplied_token pre _ post n (JBool true));
        auto using exec_all_bare_token.
    + intros s Hno. by rewrite Hlookup, Hno, declared_default_undeclared.
Qed.

Lemma parseParameters_undeclared_witness :
  let a := new_adapter QwenAdapter (js "sk-test") no_options in
  parseParameters a (js "fork") (js "--count=3 " ++ kv_token (js "style") (js "terse")
                                 ++ js " name a cat")
    !! js "style" = Some (JStr (js "terse"))
  ∧ parseParameters a (js "fast") (js "--style=terse name a cat") = ∅.
Proof.
  intros a. split.
  - destruct (parseParameters_undeclared a (js "fork")
                (core_command "fork" "Generate multiple alternative responses"
                   (Some [count_parameter]) TransformFork)) as [_ Hcaptured];
      [by vm_compute|].
    destruct (Hcaptured [count_parameter] eq_refl ltac:(done)
                (js "--count=3 ") (js "style") (js " name a cat")) as (Hkv & _ & _);
      [apply not_elem_of_cons; split; [by vm_compute | apply not_elem_of_nil]
      | by vm_compute .. |].
    apply Hkv. by vm_compute.
  - destruct (parseParameters_undeclared a (js "fast")
                (core_command "fast" "Optimize for low-latency responses"
                   None TransformFast)) as [Hnone _]; [by vm_compute|].
    apply Hnone. by left.
Defined.

(** ** The model parameters of [transformFast] and [transformThink] *)

(** The three adapters compute the same temperature and the same cap. *)
Lemma transformFast_parameters a prompt o :
  model_parameter (transformFast a prompt o) "temperature"
  = Some (JNum (Qmin 1.0 (temperature a + 0.1)))
  ∧ model_parameter (transformFast a prompt o) "max_tokens"
    = Some (JNum (Qmin (maxTokens a) 1024)).
Proof. unfold transformFast. by destruct (adapterClass a). Qed.

Lemma transformThink_parameters a prompt o :
  model_parameter (transformThink a prompt o) "temperature"
  = Some (JNum (Qmax 0.1 (temperature a - 0.2))).
Proof. unfold transformThink. by destruct (adapterClass a). Qed.

(** C6.  For every adapter, whatever its configured default temperature and
    cap, the request of [transformFast] carries a [max_tokens] that is at
    most the configured cap, and a temperature that is at least the
    configured default within the bound of the provider: the temperature is
    at most the ceiling 1.0, and it is at least the configured default
    whenever that default is itself within the ceiling (in any case it is
    at least the smaller of the default and the ceiling). *)
Theorem transformFast_bounds (a : ModelAdapter) (prompt : jstring) (o : TransformOptions) :
  ∃ max_tokens temp : Q,
    model_parameter (transformFast a prompt o) "max_tokens" = Some (JNum max_tokens)
    ∧ model_parameter (transformFast a prompt o) "temperature" = Some (JNum temp)
    ∧ (max_tokens <= maxTokens a)%Q
    ∧ (temp <= 1.0)%Q
    ∧ ((temperature a <= 1.0)%Q → (temperature a <= temp)%Q)
    ∧ (Qmin (temperature a) 1.0 <= temp)%Q.
Proof.
  destruct (transformFast_parameters a prompt o) as [Ht Hm].
  eexists _, _. split; [exact Hm|]. split; [exact Ht|].
  split; [apply Q.le_min_l|]. split; [apply Q.le_min_l|]. split.
  - intros Hle. apply Q.min_glb; [done|]. lra.
  - apply Q.min_glb; [apply Q.le_min_r|].
    apply Qle_trans with (temperature a); [apply Q.le_min_l | lra].
Qed.

Lemma transformFast_bounds_witness :
  ∃ max_tokens temp : Q,
    let a := new_adapter ClaudeAdapter (js "sk-test") no_options in
    model_parameter (transformFast a (js "hi") no_transform_options) "max_tokens"
    = Some (JNum max_tokens)
    ∧ model_parameter (transformFast a (js "hi") no_transform_options) "temperature"
      = Some (JNum temp)
    ∧ (max_tokens <= maxTokens a)%Q
    ∧ (temp <= 1.0)%Q
    ∧ (temperature a <= temp)%Q.
Proof.
  destruct (transformFast_bounds (new_adapter ClaudeAdapter (js "sk-test") no_options)
              (js "hi") no_transform_options)
    as (m & t & Hm & Ht & Hcap & Hceil & Hge & _).
  exists m, t. repeat split; try done. apply Hge. by vm_compute.
Defined.

(** C7.  For every adapter, whatever its configured default temperature,
    the request of [transformThink] carries a temperature that is at most
    the configured default within the bound of the provider: the temperature
    is at least the floor 0.1, and it is at most the configured default
    whenever that default is itself within the floor (in any case it is at
    most the larger of the default and the floor). *)
Theorem transformThink_bounds (a : ModelAdapter) (prompt : jstring) (o : TransformOptions) :
  ∃ temp : Q,
    model_parameter (transformThink a prompt o) "temperature" = Some (JNum temp)
    ∧ (0.1 <= temp)%Q
    ∧ ((0.1 <= temperature a)%Q → (temp <= temperature a)%Q)
    ∧ (temp <= Qmax (temperature a) 0.1)%Q.
Proof.
  eexists. split; [apply transformThink_parameters|].
  split; [apply Q.le_max_l|]. split.
  - intros Hle. apply Q.max_lub; [done|]. lra.
  - apply Q.max_lub; [apply Q.le_max_r|].
    apply Qle_trans with (temperature a); [lra | apply Q.le_max_l].
Qed.

Lemma transformThink_bounds_witness :
  ∃ temp : Q,
    let a := new_adapter QwenAdapter (js "sk-test") no_options in
    model_parameter (transformThink a (js "hi") no_transform_options) "temperature"
    = Some (JNum temp)
    ∧ (0.1 <= temp)%Q
    ∧ (temp <= temperature a)%Q.
Proof.
  destruct (transformThink_bounds (new_adapter QwenAdapter (js "sk-test") no_options)
              (js "hi") no_transform_options) as (t & Ht & Hfloor & Hle & _).
  exists t. repeat split; try done. apply Hle. by vm_compute.
Defined.

(** ** The facade *)

Lemma leading_token_begins prompt c :
  UniversalLLM.leading_token prompt = Some c → begins_with_token prompt c.
Proof.
  unfold UniversalLLM.leading_token. destruct prompt as [|x s]; [done|].
  destruct (x =? slash) eqn:Hx; [|done]. apply N.eqb_eq in Hx as ->.
  destruct (take_while is_word s) as [|d name] eqn:Ht; [done|].
  intros [= <-]. exists (drop_while is_word s).
  rewrite <- Ht, take_drop_while. repeat split.
  - by rewrite Ht.
  - apply forallb_take_while.
  - destruct (drop_while is_word s) eqn:Hd; [done|]. by eapply drop_while_head.
Qed.

Lemma leading_token_nonempty prompt c :
  UniversalLLM.leading_token prompt = Some c → c ≠ [].
Proof. intros (rest & _ & Hne & _)%leading_token_begins. done. Qed.

(** [executePrompt] by class: the request, and what is made of the answer
    to it. *)
Lemma executePrompt_outcome {runtime : Runtime} a w t :
  executePrompt a w t = outcome_of a (axios_post w (request_of a t)).
Proof.
  unfold executePrompt, outcome_of, request_of, read_text, text_path, providerName,
    thinking_block, Claude.executePrompt, OpenAI.executePrompt, Qwen.executePrompt.
  destruct (adapterClass a); destruct (axios_post w _) as [m|data]; try done.
  destruct (get_named "thinking_content" (Some data)) as [m|thinking]; [done|].
  by destruct (read_path _ (Some data)).
Qed.





(** [generate] counts the token before it calls the adapter, and nothing
    else touches the counters. *)
Lemma generate_after {runtime : Runtime} w f input :
  UniversalLLM.after (UniversalLLM.generate w f input)
  = match UniversalLLM.leading_token (prompt input) with
    | Some (c :: cs) => UniversalLLM.trackCommandUsage (c :: cs) f
    | _ => f
    end.
Proof.
  unfold UniversalLLM.generate.
  by destruct (generate _ w input).
Qed.

Lemma generate_counts {runtime : Runtime} w f input c :
  UniversalLLM.leading_token (prompt input) = Some c →
  UniversalLLM.getCommandUsageStats (UniversalLLM.after (UniversalLLM.generate w f input))
  = <[c := default 0 (UniversalLLM.getCommandUsageStats f !! c) + 1]>
      (UniversalLLM.getCommandUsageStats f).
Proof.
  intros Hc. rewrite generate_after, Hc.
  pose proof (leading_token_nonempty _ _ Hc). by destruct c.
Qed.

Lemma generate_adapter {runtime : Runtime} w f input :
  UniversalLLM.adapter (UniversalLLM.after (UniversalLLM.generate w f input))
  = UniversalLLM.adapter f
  ∧ UniversalLLM.telemetry (UniversalLLM.after (UniversalLLM.generate w f input))
    = UniversalLLM.telemetry f.
Proof. rewrite generate_after. by destruct (UniversalLLM.leading_token _) as [[|??]|]. Qed.

Lemma generate_response {runtime : Runtime} w f input :
  UniversalLLM.response (UniversalLLM.generate w f input)
  = generate (UniversalLLM.adapter f) w input.
Proof.
  unfold UniversalLLM.generate.
  assert (UniversalLLM.adapter
            match UniversalLLM.leading_token (prompt input) with
            | Some (c :: cs) => UniversalLLM.trackCommandUsage (c :: cs) f
            | _ => f
            end = UniversalLLM.adapter f) as ->
    by by destruct (UniversalLLM.leading_token _) as [[|??]|].
  by destruct (generate _ w input).
Qed.





(** The endpoint of the telemetry is never the empty string. *)
Lemma or_else_nonempty x d : d ≠ [] → or_else x d ≠ [].
Proof. intros Hd. by destruct x as [[|c s]|]. Qed.

Lemma reachable_endpoint {runtime : Runtime} f :
  reachable f → UniversalLLM.endpoint (UniversalLLM.telemetry f) ≠ [].
Proof.
  induction 1 as [w options f Hnew | | |w f input _ IH]; try done.
  - unfold UniversalLLM.new in Hnew.
    destruct (UniversalLLM.createAdapter options); [done|].
    injection Hnew as <-. by apply or_else_nonempty.
  - by destruct (generate_adapter w f input) as [_ ->].
Qed.

(** C10, as the claim states it, fails: with telemetry enabled, a call whose
    request fails still counts the token, but it throws before the telemetry
    step and posts no event. *)
Lemma no_telemetry_on_failure :
  UniversalLLM.new offline (options_for "openai") = inr (fresh_facade OpenAIAdapter)
  ∧ let r := UniversalLLM.generate (runtime := integer_runtime) offline
               (fresh_facade OpenAIAdapter) (ask "/unknowncmd hi") in
    UniversalLLM.enabled (UniversalLLM.telemetry (fresh_facade OpenAIAdapter)) = true
    ∧ UniversalLLM.leading_token (js "/unknowncmd hi") = Some (js "unknowncmd")
    ∧ UniversalLLM.getCommandUsageStats (UniversalLLM.after r) !! js "unknowncmd" = Some 1
    ∧ UniversalLLM.response r = inl (js "Failed to execute OpenAI prompt: Network Error")
    ∧ UniversalLLM.posted r = [].
Proof. split; [reflexivity|]. intros r. repeat split; by vm_compute. Qed.

(** C10, amended.  For every call of [generate] on a facade whose prompt
    begins with a slash and a token, the usage counter of that token is
    incremented, whether or not the token is a registered command; when the
    call returns a response and telemetry is enabled, one telemetry event is
    posted for the token, and no event is posted when the call throws or
    telemetry is disabled.  When the token does not resolve in the registry
    the prompt reaches [executePrompt] untransformed. *)
Theorem generate_counts_any_token {runtime : Runtime} (w : World) (f : UniversalLLM.t)
    (input : GenerateOptions) (c : jstring) :
  reachable f →
  UniversalLLM.leading_token (prompt input) = Some c →
  let r := UniversalLLM.generate w f input in
  let a := UniversalLLM.adapter f in
  UniversalLLM.getCommandUsageStats (UniversalLLM.after r) !! c
  = Some (default 0 (UniversalLLM.getCommandUsageStats f !! c) + 1)
  ∧ (∀ text, UniversalLLM.response r = inr text →
       UniversalLLM.enabled (UniversalLLM.telemetry f) = true →
       ∃ ev, UniversalLLM.posted r = [ev]
             ∧ UniversalLLM.ev_command ev = c
             ∧ UniversalLLM.ev_provider ev = UniversalLLM.telemetry_provider a
             ∧ UniversalLLM.ev_prompt_length ev = length (prompt input))
  ∧ (∀ e, UniversalLLM.response r = inl e → UniversalLLM.posted r = [])
  ∧ (UniversalLLM.enabled (UniversalLLM.telemetry f) = false → UniversalLLM.posted r = [])
  ∧ (commands a !! resolve_alias a c = None →
       UniversalLLM.response r
       = executePrompt a w
           {| systemPrompt := Some (default [] (input_systemPrompt input));
              userPrompt := prompt input;
              modelParameters := None |}).
Proof.
  intros Hreach Hc r a. subst r a.
  pose proof (leading_token_nonempty _ _ Hc) as Hne.
  pose proof (reachable_endpoint f Hreach) as Hend.
  split; [by rewrite (generate_counts w f input c Hc), lookup_insert_eq|].
  assert (∀ x, UniversalLLM.telemetry (UniversalLLM.trackCommandUsage x f)
               = UniversalLLM.telemetry f) as Htel by done.
  assert (∀ x, UniversalLLM.adapter (UniversalLLM.trackCommandUsage x f)
               = UniversalLLM.adapter f) as Had by done.
  split; [|split; [|split]].
  - unfold UniversalLLM.generate. rewrite Hc. destruct c as [|d c]; [done|].
    rewrite Had. destruct (generate _ w input) as [e|text']; [done|].
    intros text _ Hen. simpl. rewrite ?Htel, Hen.
    unfold UniversalLLM.sendTelemetry. rewrite ?Htel, ?Had, Hen.
    rewrite bool_decide_eq_false_2 by done. simpl. by eexists.
  - unfold UniversalLLM.generate. rewrite Hc. destruct c as [|d c]; [done|].
    by destruct (generate _ w input).
  - intros Hoff. unfold UniversalLLM.generate. rewrite Hc. destruct c as [|d c]; [done|].
    destruct (generate _ w input); [done|]. simpl. by rewrite ?Htel, Hoff.
  - intros Hnone. rewrite generate_response. apply generate_no_command.
    rewrite parseCommand_unresolved; [done|].
    right. exists c. split; [by apply leading_token_begins | done].
Qed.

Lemma generate_counts_any_token_witness :
  let r := UniversalLLM.generate (runtime := integer_runtime) online
             (fresh_facade QwenAdapter) (ask "/unknowncmd hi") in
  UniversalLLM.getCommandUsageStats (UniversalLLM.after r) !! js "unknowncmd" = Some 1
  ∧ (∃ ev, UniversalLLM.posted r = [ev]
           ∧ UniversalLLM.ev_command ev = js "unknowncmd"
           ∧ UniversalLLM.ev_provider ev = js "qwen"
           ∧ UniversalLLM.ev_prompt_length ev = 14%nat)
  ∧ UniversalLLM.response r = inr (Some (JsonString (js "Paris"))).
Proof.
  intros r.
  destruct (generate_counts_any_token (runtime := integer_runtime) online
              (fresh_facade QwenAdapter) (ask "/unknowncmd hi") (js "unknowncmd"))
    as (Hcount & Hposted & _ & _ & Hplain).
  - apply (reachable_new (runtime := integer_runtime) online (options_for "qwen")). reflexivity.
  - by vm_compute.
  - split; [exact Hcount|]. split.
    + apply (Hposted (Some (JsonString (js "Paris")))); by vm_compute.
    + subst r. rewrite Hplain; by vm_compute.
Defined.

(** * Further properties *)

(** ** The registry *)

Lemma alias_fold_lookup (m : gmap jstring jstring) (als : list jstring) (n al : jstring) :
  foldl (λ m alias, <[alias := n]> m) m als !! al
  = if bool_decide (al ∈ als) then Some n else m !! al.
Proof.
  revert m. induction als as [|x als IH]; intros m; simpl.
  - done.
  - rewrite IH. case_bool_decide as Hin.
    + rewrite bool_decide_eq_true_2; [done | by apply elem_of_cons; right].
    + destruct (decide (al = x)) as [->|Hne].
      * rewrite bool_decide_eq_true_2 by (apply elem_of_cons; by left).
        by rewrite lookup_insert_eq.
      * rewrite bool_decide_eq_false_2 by (rewrite elem_of_cons; tauto).
        by rewrite lookup_insert_ne.
Qed.

Lemma aliasMap_registerCommand cmd a al :
  aliasMap (registerCommand cmd a) !! al
  = if bool_decide (al ∈ aliases_of cmd) then Some (name cmd) else aliasMap a !! al.
Proof.
  unfold registerCommand, aliases_of. simpl. destruct (aliases cmd) as [als|]; simpl.
  - apply alias_fold_lookup.
  - done.
Qed.

Lemma commands_registerCommand cmd a :
  commands (registerCommand cmd a) = <[name cmd := cmd]> (commands a).
Proof. done. Qed.

Lemma or_else_some (n d : jstring) : n ≠ [] → or_else (Some n) d = n.
Proof. by destruct n. Qed.

Lemma parseCommand_token a prompt t :
  begins_with_token prompt t →
  Base.command (parseCommand a prompt)
  = match commands a !! resolve_alias a t with
    | Some _ => Some (resolve_alias a t)
    | None => None
    end.
Proof.
  intros Htok. destruct (match_commandRegex_token _ _ Htok) as (fm & rest & Hm).
  unfold parseCommand. rewrite Hm. by destruct (commands a !! resolve_alias a t).
Qed.

(** X1.  After [registerCommand], each alias of the command (and its name
    when no alias entry stands for it) leads the parser to the command: a
    prompt that begins with the slash and the alias is parsed to the name of
    the command, under which the command is stored. *)
Theorem registerCommand_resolves (a : ModelAdapter) (cmd : SymbolicCommand)
    (token rest : jstring) :
  name cmd ≠ [] →
  is_name token = true →
  match rest with [] => True | c :: _ => is_word c = false end →
  token ∈ aliases_of cmd
  ∨ (token = name cmd ∧ aliasMap a !! token = None) →
  let a' := registerCommand cmd a in
  resolve_alias a' token = name cmd
  ∧ commands a' !! name cmd = Some cmd
  ∧ Base.command (parseCommand a' (slash :: token ++ rest)) = Some (name cmd).
Proof.
  intros Hname Htoken Hrest Hcase a'.
  assert (resolve_alias a' token = name cmd) as Hres.
  { unfold resolve_alias, a'. rewrite aliasMap_registerCommand.
    destruct Hcase as [Hin | [-> Hnone]].
    - rewrite bool_decide_eq_true_2 by done. by apply or_else_some.
    - case_bool_decide; [by apply or_else_some|]. by rewrite Hnone. }
  assert (commands a' !! name cmd = Some cmd) as Hcmd
    by (unfold a'; by rewrite commands_registerCommand, lookup_insert_eq).
  split; [done|]. split; [done|].
  rewrite (parseCommand_token a' _ token), Hres, Hcmd; [done|].
  exists rest. apply andb_true_iff in Htoken as [Hne Hw].
  apply negb_true_iff, bool_decide_eq_false in Hne. done.
Qed.

Lemma registerCommand_resolves_witness :
  let a' := registerCommand debate_command (new_adapter ClaudeAdapter (js "sk-test") no_options) in
  resolve_alias a' (js "argue") = js "debate"
  ∧ commands a' !! js "debate" = Some debate_command
  ∧ Base.command (parseCommand a' (slash :: js "argue" ++ js " --format=dialogue tax sugar"))
    = Some (js "debate").
Proof.
  apply (registerCommand_resolves (new_adapter ClaudeAdapter (js "sk-test") no_options)
           debate_command (js "argue") (js " --format=dialogue tax sugar")).
  - done.
  - by vm_compute.
  - by vm_compute.
  - left. apply list_elem_of_singleton. reflexivity.
Defined.

(** X2.  An alias takes precedence over a command name.  When the name of
    the command that is registered is already an alias of another registered
    command (and is not among its own aliases), a prompt that begins with
    that name is still parsed to the other command: the new command is stored
    but is not reached through its name. *)
Theorem alias_shadows_command (a : ModelAdapter) (cmd target : SymbolicCommand)
    (n rest : jstring) :
  aliasMap a !! name cmd = Some n → n ≠ [] → n ≠ name cmd →
  commands a !! n = Some target →
  name cmd ∉ aliases_of cmd →
  is_name (name cmd) = true →
  match rest with [] => True | c :: _ => is_word c = false end →
  let a' := registerCommand cmd a in
  commands a' !! name cmd = Some cmd
  ∧ Base.command (parseCommand a' (slash :: name cmd ++ rest)) = Some n
  ∧ commands a' !! n = Some target.
Proof.
  intros Hal Hn Hne Htarget Hself Hname Hrest a'.
  assert (resolve_alias a' (name cmd) = n) as Hres.
  { unfold resolve_alias, a'. rewrite aliasMap_registerCommand.
    rewrite bool_decide_eq_false_2 by done. rewrite Hal. by apply or_else_some. }
  assert (commands a' !! n = Some target) as Hcmd
    by (unfold a'; by rewrite commands_registerCommand, lookup_insert_ne).
  split; [unfold a'; by rewrite commands_registerCommand, lookup_insert_eq|].
  split; [|done].
  rewrite (parseCommand_token a' _ (name cmd)), Hres, Hcmd; [done|].
  exists rest. apply andb_true_iff in Hname as [Hne' Hw].
  apply negb_true_iff, bool_decide_eq_false in Hne'. done.
Qed.

Lemma alias_shadows_command_witness :
  let a := registerCommand debate_command
             (new_adapter OpenAIAdapter (js "sk-test") no_options) in
  let a' := registerCommand argue_command a in
  commands a' !! js "argue" = Some argue_command
  ∧ Base.command (parseCommand a' (slash :: js "argue" ++ js " tax sugar")) = Some (js "debate")
  ∧ commands a' !! js "debate" = Some debate_command.
Proof.
  intros a.
  apply (alias_shadows_command a argue_command debate_command (js "debate") (js " tax sugar"));
    try by vm_compute.
  apply not_elem_of_nil.
Defined.

(** X3.  [registerCommand] only adds: every command and every alias that was
    there is still there, the commands under other names and the aliases that
    the new command does not declare are what they were.  Registering a
    second command under the name of a first replaces the first, and the
    aliases of the first that the second does not declare now lead to the
    second. *)
Theorem registerCommand_grows (a : ModelAdapter) (cmd : SymbolicCommand) :
  let a' := registerCommand cmd a in
  dom (commands a) ⊆ dom (commands a')
  ∧ dom (aliasMap a) ⊆ dom (aliasMap a')
  ∧ (∀ n, n ≠ name cmd → commands a' !! n = commands a !! n)
  ∧ (∀ al, al ∉ aliases_of cmd → aliasMap a' !! al = aliasMap a !! al)
  ∧ (∀ first, name first = name cmd →
       let a'' := registerCommand cmd (registerCommand first a) in
       commands a'' = commands a'
       ∧ ∀ al, al ∈ aliases_of first → al ∉ aliases_of cmd →
               aliasMap a'' !! al = Some (name cmd)).
Proof.
  intros a'. unfold a'. split; [|split; [|split; [|split]]].
  - rewrite commands_registerCommand. apply dom_insert_subseteq.
  - apply elem_of_subseteq. intros al [n Hal]%elem_of_dom. apply elem_of_dom.
    rewrite aliasMap_registerCommand. case_bool_decide; eauto.
  - intros n Hn. by rewrite commands_registerCommand, lookup_insert_ne.
  - intros al Hal. rewrite aliasMap_registerCommand. by rewrite bool_decide_eq_false_2.
  - intros first Hfirst. split.
    + rewrite !commands_registerCommand, Hfirst. apply insert_insert_eq.
    + intros al Hin Hout. rewrite !aliasMap_registerCommand.
      rewrite bool_decide_eq_false_2, bool_decide_eq_true_2 by done. by rewrite Hfirst.
Qed.

Lemma registerCommand_grows_witness :
  let a := new_adapter QwenAdapter (js "sk-test") no_options in
  let second := {| name := js "debate"; description := js "Debate, again";
                   aliases := None; parameters := None; transform := TransformThink |} in
  let a'' := registerCommand second (registerCommand debate_command a) in
  commands a'' = commands (registerCommand second a)
  ∧ aliasMap a'' !! js "argue" = Some (js "debate")
  ∧ commands a'' !! js "think" = commands a !! js "think".
Proof.
  intros a second a''.
  destruct (registerCommand_grows a second) as (_ & _ & _ & _ & Hre).
  destruct (Hre debate_command eq_refl) as [Hsame Hstale].
  split; [exact Hsame|]. split.
  - apply Hstale; [apply list_elem_of_singleton; reflexivity | apply not_elem_of_nil].
  - destruct (registerCommand_grows (registerCommand debate_command a) second)
      as (_ & _ & Hother & _).
    unfold a''. rewrite Hother by by vm_compute.
    destruct (registerCommand_grows a debate_command) as (_ & _ & Hother' & _).
    apply Hother'. by vm_compute.
Defined.

Lemma match_commandRegex_begins prompt fullMatch token rest :
  match_commandRegex prompt = Some (fullMatch, token, rest) →
  begins_with_token prompt token.
Proof.
  unfold match_commandRegex. destruct prompt as [|x s]; [done|].
  destruct (x =? slash) eqn:Hx; [|done]. apply N.eqb_eq in Hx as ->.
  destruct (take_while is_word s) as [|d nm] eqn:Ht; [done|].
  intros Hm.
  assert (token = d :: nm) as ->
    by (destruct (take_while is_space (drop_while is_word s)); by injection Hm as _ <- _).
  exists (drop_while is_word s). rewrite <- Ht, take_drop_while. repeat split.
  - by rewrite Ht.
  - apply forallb_take_while.
  - destruct (drop_while is_word s) eqn:Hd; [done|]. by eapply drop_while_head.
Qed.

(** X4.  Registering a command does not change how other prompts are parsed:
    a prompt without a leading token, or whose token is not an alias of the
    new command and did not resolve to its name, is parsed as before
    (command, clean prompt and parameters). *)
Theorem registerCommand_frame (a : ModelAdapter) (cmd : SymbolicCommand) (prompt : jstring) :
  (∀ token, begins_with_token prompt token →
     (token ∉ aliases_of cmd) ∧ resolve_alias a token ≠ name cmd) →
  parseCommand (registerCommand cmd a) prompt = parseCommand a prompt.
Proof.
  intros Hframe. unfold parseCommand.
  destruct (match_commandRegex prompt) as [[[fm token] rest]|] eqn:Hm; [|done].
  pose proof (match_commandRegex_begins _ _ _ _ Hm) as Htok.
  destruct (Hframe token Htok) as [Hal Hres].
  assert (resolve_alias (registerCommand cmd a) token = resolve_alias a token) as ->.
  { unfold resolve_alias. rewrite aliasMap_registerCommand.
    by rewrite bool_decide_eq_false_2. }
  rewrite commands_registerCommand, lookup_insert_ne by done.
  destruct (commands a !! resolve_alias a token); [|done].
  f_equal. unfold parseParameters.
  by rewrite commands_registerCommand, lookup_insert_ne.
Qed.

Lemma registerCommand_frame_witness :
  let a := new_adapter ClaudeAdapter (js "sk-test") no_options in
  parseCommand (registerCommand debate_command a)
    (slash :: js "loop" ++ js " --iterations=4 tidy this")
  = parseCommand a (slash :: js "loop" ++ js " --iterations=4 tidy this").
Proof.
  intros a. apply registerCommand_frame.
  intros token (rest & Heq & Hne & Hw & Hrest).
  assert (token = js "loop") as ->.
  { injection Heq as Heq.
    pose proof (take_while_token token rest Hw Hrest) as [Ht _].
    rewrite <- Heq in Ht. rewrite <- Ht. reflexivity. }
  split; [|by vm_compute].
  intros Hin. apply list_elem_of_singleton in Hin. by vm_compute in Hin.
Defined.

(** ** The parser, completed *)

(** X5.  A command that [parseCommand] reports is never the empty string
    and is always a key of the command map, reached from the leading token of
    the prompt; when it reports none, the prompt and an empty mapping come
    back.  So the optional call in [generate] never yields [undefined]:
    [executePrompt] always receives a transformed prompt. *)
Theorem parseCommand_sound {runtime : Runtime} (a : ModelAdapter) (input : GenerateOptions) :
  match Base.command (parseCommand a (prompt input)) with
  | Some c =>
      c ≠ [] ∧ is_Some (commands a !! c)
      ∧ ∃ token, begins_with_token (prompt input) token ∧ c = resolve_alias a token
  | None =>
      cleanPrompt (parseCommand a (prompt input)) = prompt input
      ∧ params (parseCommand a (prompt input)) = ∅
  end
  ∧ transformed a input ≠ inr None.
Proof.
  assert (match Base.command (parseCommand a (prompt input)) with
          | Some c =>
              c ≠ [] ∧ is_Some (commands a !! c)
              ∧ ∃ token, begins_with_token (prompt input) token ∧ c = resolve_alias a token
          | None =>
              cleanPrompt (parseCommand a (prompt input)) = prompt input
              ∧ params (parseCommand a (prompt input)) = ∅
          end) as Hsound.
  { unfold parseCommand.
    destruct (match_commandRegex (prompt input)) as [[[fm token] rest]|] eqn:Hm; [|done].
    pose proof (match_commandRegex_begins _ _ _ _ Hm) as Htok.
    destruct (commands a !! resolve_alias a token) as [cmd|] eqn:Hc; [|done].
    simpl. split; [|split; [by rewrite Hc | by exists token]].
    apply or_else_nonempty. by destruct Htok as (? & _ & ? & _). }
  split; [exact Hsound|].
  unfold transformed. destruct (Base.command (parseCommand a (prompt input))) as [[|c cs]|];
    try done.
  destruct Hsound as (_ & [cmd ->] & _).
  by destruct (run_transform _ _ _ _).
Qed.

Lemma trim_space_cons c s : is_space c = true → trim (c :: s) = trim s.
Proof. intros Hc. unfold trim. simpl. by rewrite Hc. Qed.

Lemma parseCommand_after_space a token cmd ws line more :
  is_name token = true →
  commands a !! resolve_alias a token = Some cmd →
  ws ≠ [] → forallb is_space ws = true →
  forallb not_newline line = true →
  match line with [] => more = [] | c :: _ => is_space c = false end →
  match more with [] => True | c :: _ => c = 10 end →
  parseCommand a (slash :: token ++ ws ++ line ++ more)
  = {| Base.command := Some (resolve_alias a token);
       cleanPrompt := trim more;
       params := parseParameters a (resolve_alias a token) line |}.
Proof.
  intros Htoken Hcmd Hws Hsp Hline Hhead Hmore.
  apply andb_true_iff in Htoken as [Hne Hw].
  apply negb_true_iff, bool_decide_eq_false in Hne.
  assert (match_commandRegex (slash :: token ++ ws ++ line ++ more)
          = Some (slash :: token ++ ws ++ line, token, Some line)) as Hm.
  { unfold match_commandRegex. rewrite N.eqb_refl.
    destruct ws as [|e ws]; [done|]. clear Hws.
    assert (is_space e = true) as He
      by (simpl in Hsp; by apply andb_true_iff in Hsp as [? _]).
    rewrite <- app_comm_cons.
    rewrite (take_while_app_stop is_word token e) by auto using space_not_word.
    rewrite (drop_while_app_stop is_word token e) by auto using space_not_word.
    destruct token as [|t0 token]; [done|].
    rewrite (app_comm_cons ws (line ++ more) e).
    assert (take_while is_space ((e :: ws) ++ line ++ more) = e :: ws
            ∧ drop_while is_space ((e :: ws) ++ line ++ more) = line ++ more) as [-> ->].
    { destruct line as [|l0 line].
      - subst more. rewrite !app_nil_r.
        split; [by apply take_while_all | by apply drop_while_all].
      - split.
        + by apply (take_while_app_stop is_space (e :: ws) l0 (line ++ more)).
        + by apply (drop_while_app_stop is_space (e :: ws) l0 (line ++ more)). }
    assert (take_while not_newline (line ++ more) = line) as ->.
    { destruct more as [|m0 more]; [rewrite app_nil_r; by apply take_while_all|].
      subst m0. by apply take_while_app_stop. }
    done. }
  rewrite (parseCommand_resolved a _ _ _ _ cmd Hm Hcmd).
  f_equal.
  - f_equal.
    replace (slash :: token ++ ws ++ line ++ more)
      with ((slash :: token ++ ws ++ line) ++ more)
      by (simpl; by rewrite <- !app_assoc).
    by rewrite drop_app_length.
  - by destruct line.
Qed.

Lemma parseCommand_after_other a token cmd rest :
  is_name token = true →
  commands a !! resolve_alias a token = Some cmd →
  match rest with [] => True | c :: _ => is_word c = false ∧ is_space c = false end →
  parseCommand a (slash :: token ++ rest)
  = {| Base.command := Some (resolve_alias a token);
       cleanPrompt := trim rest;
       params := parseParameters a (resolve_alias a token) [] |}.
Proof.
  intros Htoken Hcmd Hrest.
  apply andb_true_iff in Htoken as [Hne Hw].
  apply negb_true_iff, bool_decide_eq_false in Hne.
  assert (match_commandRegex (slash :: token ++ rest)
          = Some (slash :: token, token, None)) as Hm.
  { unfold match_commandRegex. rewrite N.eqb_refl.
    destruct (take_while_token token rest Hw) as [-> ->];
      [by destruct rest as [|c rest]; [|destruct Hrest]|].
    destruct token as [|t0 token]; [done|].
    destruct rest as [|c rest]; [done|]. destruct Hrest as [_ Hc]. simpl. by rewrite Hc. }
  rewrite (parseCommand_resolved a _ _ _ _ cmd Hm Hcmd).
  f_equal. f_equal.
  change (slash :: token ++ rest) with ((slash :: token) ++ rest).
  by rewrite drop_app_length.
Qed.

(** X6.  What [parseCommand] makes of a prompt whose token resolves.  When
    white space follows the token, the line that follows it (up to the next
    line feed) is where the parameters are read, and the clean prompt is what
    comes after that line, trimmed: nothing, when the prompt has one line.
    When something else follows the token, no parameter is read and the clean
    prompt is all that follows the token, trimmed. *)
Theorem parseCommand_lines (a : ModelAdapter) (token : jstring) (cmd : SymbolicCommand) :
  is_name token = true →
  commands a !! resolve_alias a token = Some cmd →
  (∀ ws line more,
     ws ≠ [] → forallb is_space ws = true →
     forallb not_newline line = true →
     match line with [] => more = [] | c :: _ => is_space c = false end →
     match more with [] => True | c :: _ => c = 10 end →
     parseCommand a (slash :: token ++ ws ++ line ++ more)
     = {| Base.command := Some (resolve_alias a token);
          cleanPrompt := trim more;
          params := parseParameters a (resolve_alias a token) line |})
  ∧ (∀ rest,
       match rest with [] => True | c :: _ => is_word c = false ∧ is_space c = false end →
       parseCommand a (slash :: token ++ rest)
       = {| Base.command := Some (resolve_alias a token);
            cleanPrompt := trim rest;
            params := parseParameters a (resolve_alias a token) [] |}).
Proof.
  intros Htoken Hcmd. split.
  - intros ws line more. by apply (parseCommand_after_space a token cmd).
  - intros rest. by apply (parseCommand_after_other a token cmd).
Qed.

Lemma parseCommand_lines_witness :
  let a := new_adapter ClaudeAdapter (js "sk-test") no_options in
  parseCommand a (slash :: js "loop" ++ js " " ++ js "--iterations=2 shorten" ++ js "
The quick brown fox.
")
  = {| Base.command := Some (js "loop");
       cleanPrompt := js "The quick brown fox.";
       params := {[ js "iterations" := JStr (js "2") ]} |}
  ∧ parseCommand a (slash :: js "think" ++ js ": why?")
    = {| Base.command := Some (js "think"); cleanPrompt := js ": why?"; params := ∅ |}.
Proof.
  intros a. split.
  - destruct (parseCommand_lines a (js "loop")
                (core_command "loop" "Enable iterative refinement cycles"
                   (Some [iterations_parameter]) TransformLoop)) as [Hlines _];
      [by vm_compute .. |].
    rewrite Hlines by by vm_compute. by vm_compute.
  - destruct (parseCommand_lines a (js "think")
                (core_command "think" "Activate extended reasoning pathways"
                   None TransformThink)) as [_ Hrest];
      [by vm_compute .. |].
    rewrite Hrest by by vm_compute. by vm_compute.
Defined.

(** ** The parameter mapping, completed *)

Lemma match_paramRegex_here_shape s n v len :
  match_paramRegex_here s = Some (n, v, len) →
  is_name n = true
  ∧ (v = JBool true ∨ ∃ str, v = JStr str ∧ is_value str = true).
Proof.
  destruct s as [|d1 [|d2 s0]]; simpl; try done.
  destruct ((d1 =? dash) && (d2 =? dash)); [|done].
  pose proof (forallb_take_while is_word s0) as Hw.
  destruct (take_while is_word s0) as [|c nm] eqn:Hn; [done|].
  assert (is_name (c :: nm) = true) as Hname by (unfold is_name; by rewrite Hw).
  destruct (drop_while is_word s0) as [|e s1].
  - intros [= <- <- <-]. eauto.
  - pose proof (forallb_take_while not_space s1) as Hv.
    destruct (take_while not_space s1) as [|x str] eqn:Hstr.
    + rewrite andb_false_r. intros [= <- <- <-]. eauto.
    + destruct (e =? equals); simpl; intros [= <- <- <-]; [|by eauto].
      split; [done|]. right. eexists. split; [done|]. unfold is_value. by rewrite Hv.
Qed.

Lemma exec_all_shape k s n v :
  (n, v) ∈ exec_all k s →
  is_name n = true
  ∧ (v = JBool true ∨ ∃ str, v = JStr str ∧ is_value str = true).
Proof.
  revert k. induction s as [|c s IH]; intros k; [by intros ?%elem_of_nil|].
  rewrite exec_all_cons. destruct k as [|k]; [|apply IH].
  destruct (match_paramRegex_here (c :: s)) as [[[n' v'] len]|] eqn:Hm; [|apply IH].
  intros [[= -> ->]|Hin]%elem_of_cons; [|by eapply IH].
  by eapply match_paramRegex_here_shape.
Qed.

Lemma last_binding_Some n ms v : last_binding n ms = Some v → (n, v) ∈ ms.
Proof.
  unfold last_binding. intros Hlast.
  assert (v ∈ omap (λ m : jstring * jsval,
                      if bool_decide (m.1 = n) then Some m.2 else None) ms) as Hin.
  { revert Hlast. generalize (omap (λ m : jstring * jsval,
                      if bool_decide (m.1 = n) then Some m.2 else None) ms).
    intros l. induction l as [|x [|y l] IH]; simpl; [done| |].
    - intros [= ->]. apply elem_of_cons. by left.
    - intros Hl. apply elem_of_cons. right. by apply IH. }
  apply list_elem_of_omap in Hin as ([k w] & Hin & Hf). simpl in Hf.
  case_bool_decide as Hk; [|done]. simpl in Hk. injection Hf as <-. by subst.
Qed.

Lemma declared_default_Some ps n d :
  declared_default ps n = Some d → ∃ p, p ∈ ps ∧ pname p = n ∧ pdefault p = Some d.
Proof.
  unfold declared_default. intros Hlast.
  assert (d ∈ omap (λ p, if bool_decide (pname p = n) then pdefault p else None) ps) as Hin.
  { revert Hlast. generalize (omap (λ p, if bool_decide (pname p = n)
                                         then pdefault p else None) ps).
    intros l. induction l as [|x [|y l] IH]; simpl; [done| |].
    - intros [= ->]. apply elem_of_cons. by left.
    - intros Hl. apply elem_of_cons. right. by apply IH. }
  apply list_elem_of_omap in Hin as (p & Hin & Hf).
  case_bool_decide as Hk; [|done]. eauto.
Qed.

(** X7.  The entries of the mapping of [parseParameters].  A value is either
    supplied by the string, and then it is [true] or a string that is not
    empty and holds no white space (the text of the token: a number is not
    converted), or it is the default of a declaration of that name.  A key
    that the string supplies is a parameter name. *)
Theorem parseParameters_entries (a : ModelAdapter) (c s n : jstring) (v : jsval) :
  parseParameters a c s !! n = Some v →
  match supplied n s with
  | Some v' =>
      v = v' ∧ is_name n = true
      ∧ (v = JBool true ∨ ∃ str, v = JStr str ∧ is_value str = true)
  | None =>
      ∃ cmd ps p, commands a !! c = Some cmd ∧ parameters cmd = Some ps
                  ∧ p ∈ ps ∧ pname p = n ∧ pdefault p = Some v
  end.
Proof.
  intros Hv.
  destruct (commands a !! c) as [cmd|] eqn:Hc;
    [|unfold parseParameters in Hv; by rewrite Hc in Hv].
  destruct (parameters cmd) as [[|p0 ps]|] eqn:Hps;
    try (unfold parseParameters in Hv; by rewrite Hc, Hps in Hv).
  assert (n ≠ js "__proto__") as Hproto.
  { intros ->. by rewrite parseParameters_proto in Hv. }
  rewrite (parseParameters_lookup a c cmd (p0 :: ps) s n Hc Hps) in Hv by done.
  destruct (supplied n s) as [v'|] eqn:Hs.
  - injection Hv as ->. split; [done|].
    apply last_binding_Some in Hs. by apply exec_all_shape in Hs.
  - apply declared_default_Some in Hv as (p & Hin & Hn & Hd).
    by exists cmd, (p0 :: ps), p.
Qed.

Lemma parseParameters_entries_witness :
  let a := new_adapter OpenAIAdapter (js "sk-test") no_options in
  supplied (js "count") (js "--count=3 name a cat") = Some (JStr (js "3"))
  ∧ is_name (js "count") = true
  ∧ (JStr (js "3") = JBool true ∨ ∃ str, JStr (js "3") = JStr str ∧ is_value str = true).
Proof.
  intros a.
  pose proof (parseParameters_entries a (js "fork") (js "--count=3 name a cat")
                (js "count") (JStr (js "3"))) as Hentries.
  assert (supplied (js "count") (js "--count=3 name a cat") = Some (JStr (js "3"))) as Hs
    by by vm_compute.
  rewrite Hs in Hentries. split; [done|].
  apply Hentries. by vm_compute.
Defined.

(** X18.  The mapping of [parseParameters] for a command that declares at
    least one parameter, under every name other than [__proto__]: the value
    of the last match of that name in the string and, without a match, the
    default of the last declaration of that name that has one.  So a token
    [--name=value] between white space maps the name to the value and a bare
    token [--name] maps it to [true], whatever comes before (an earlier
    token of the same name is overwritten), unless a later token has the
    same name; and when the declared names are distinct, a declared
    parameter that is not supplied has its default when it has one and is
    absent otherwise. *)
Theorem parseParameters_declared (a : ModelAdapter) (c : jstring)
    (cmd : SymbolicCommand) (ps : list ParameterDeclaration) :
  commands a !! c = Some cmd → parameters cmd = Some ps → ps ≠ [] →
  (∀ s n, n ≠ js "__proto__" →
          parseParameters a c s !! n
          = match supplied n s with Some v => Some v | None => declared_default ps n end)
  ∧ (∀ pre n v post,
       n ≠ js "__proto__" →
       token_start pre = true → token_end post = true →
       is_name n = true → is_value v = true → supplied n post = None →
       parseParameters a c (pre ++ kv_token n v ++ post) !! n = Some (JStr v))
  ∧ (∀ pre n post,
       n ≠ js "__proto__" →
       token_start pre = true → token_end post = true →
       is_name n = true → supplied n post = None →
       parseParameters a c (pre ++ bare_token n ++ post) !! n = Some (JBool true))
  ∧ (∀ s p, NoDup (pname <$> ps) → p ∈ ps → pname p ≠ js "__proto__" →
       supplied (pname p) s = None →
       parseParameters a c s !! pname p = pdefault p).
Proof.
  intros Hc Hps Hne.
  pose proof (λ s n, parseParameters_lookup a c cmd ps s n Hc Hps Hne) as Hlookup.
  split; [done|]. split; [|split].
  - intros pre n v post Hproto Hpre Hpost Hn Hv Hlater.
    rewrite Hlookup, (supplied_token pre _ post n (JStr v)); auto using exec_all_kv_token.
  - intros pre n post Hproto Hpre Hpost Hn Hlater.
    rewrite Hlookup, (supplied_token pre _ post n (JBool true));
      auto using exec_all_bare_token.
  - intros s p Hnd Hin Hproto Hno. by rewrite Hlookup, Hno, declared_default_NoDup.
Qed.

Lemma parseParameters_declared_witness :
  let a := new_adapter OpenAIAdapter (js "sk-test") no_options in
  parseParameters a (js "loop") (js "--iterations=5 " ++ kv_token (js "iterations") (js "7")
                                 ++ js " --deep improve this")
    !! js "iterations" = Some (JStr (js "7"))
  ∧ parseParameters a (js "loop") (js "" ++ bare_token (js "deep") ++ js " improve this")
    !! js "deep" = Some (JBool true)
  ∧ parseParameters a (js "loop") (js "improve this") !! js "iterations" = Some (JNum 3).
Proof.
  intros a.
  destruct (parseParameters_declared a (js "loop")
              (core_command "loop" "Enable iterative refinement cycles"
                 (Some [iterations_parameter]) TransformLoop)
              [iterations_parameter])
    as (_ & Hkv & Hbare & Hdefault); [by vm_compute | done | done |].
  split; [|split].
  - apply Hkv; by vm_compute.
  - apply Hbare; by vm_compute.
  - apply (Hdefault (js "improve this") iterations_parameter).
    + apply NoDup_singleton.
    + apply list_elem_of_singleton. reflexivity.
    + by vm_compute.
    + by vm_compute.
Defined.

(** ** The six transforms *)

Lemma transform_temperature_values {runtime : Runtime} a prompt o :
  model_parameter (transformReflect a prompt o) "temperature"
  = Some (JNum (Qmax 0.1 (temperature a - 0.1)))
  ∧ model_parameter (transformFork a prompt o) "temperature"
    = Some (JNum (Qmin 1.0 (temperature a + 0.2)))
  ∧ model_parameter (transformLoop a prompt o) "temperature" = Some (JNum (temperature a))
  ∧ model_parameter (transformCollapse a prompt o) "temperature"
    = Some (JNum (temperature a)).
Proof.
  unfold transformReflect, transformFork, transformLoop, transformCollapse.
  by destruct (adapterClass a).
Qed.

(** X8.  How the six built-in transforms set the temperature, for each of
    the three adapters alike: [loop] and [collapse] carry the configured
    default as it is (it is not clamped); [think] is never above [reflect]
    and [fast] never above [fork]; [reflect] is at least 0.1 and [fork] at
    most 1.0; and when the configured default lies between 0.1 and 1.0 the
    six are in the order think, reflect, default, fast, fork. *)
Theorem transform_temperature_order {runtime : Runtime}
    (a : ModelAdapter) (prompt : jstring) (o : TransformOptions) :
  ∃ think reflect fast fork : Q,
    model_parameter (transformThink a prompt o) "temperature" = Some (JNum think)
    ∧ model_parameter (transformReflect a prompt o) "temperature" = Some (JNum reflect)
    ∧ model_parameter (transformFast a prompt o) "temperature" = Some (JNum fast)
    ∧ model_parameter (transformFork a prompt o) "temperature" = Some (JNum fork)
    ∧ model_parameter (transformLoop a prompt o) "temperature" = Some (JNum (temperature a))
    ∧ model_parameter (transformCollapse a prompt o) "temperature"
      = Some (JNum (temperature a))
    ∧ (think <= reflect)%Q ∧ (fast <= fork)%Q
    ∧ (0.1 <= reflect)%Q ∧ (fork <= 1.0)%Q
    ∧ ((0.1 <= temperature a)%Q → (reflect <= temperature a)%Q)
    ∧ ((temperature a <= 1.0)%Q → (temperature a <= fast)%Q).
Proof.
  destruct (transform_temperature_values a prompt o) as (Hr & Hk & Hl & Hc).
  destruct (transformFast_parameters a prompt o) as [Hf _].
  pose proof (transformThink_parameters a prompt o) as Ht.
  eexists _, _, _, _. repeat (split; [eassumption|]).
  split; [|split; [|split; [|split; [|split]]]].
  - apply Q.max_lub; [apply Q.le_max_l|].
    apply Qle_trans with (temperature a - 0.1)%Q; [lra | apply Q.le_max_r].
  - apply Q.min_glb; [apply Q.le_min_l|].
    apply Qle_trans with (temperature a + 0.1)%Q; [apply Q.le_min_r | lra].
  - apply Q.le_max_l.
  - apply Q.le_min_l.
  - intros Hle. apply Q.max_lub; [done|]. lra.
  - intros Hle. apply Q.min_glb; [done|]. lra.
Qed.

Lemma transform_temperature_order_witness :
  ∃ think reflect fast fork : Q,
    let a := new_adapter ClaudeAdapter (js "sk-test") no_options in
    model_parameter (transformThink a (js "hi") no_transform_options) "temperature"
    = Some (JNum think)
    ∧ model_parameter (transformFork (runtime := integer_runtime) a (js "hi")
                         no_transform_options) "temperature" = Some (JNum fork)
    ∧ (think <= reflect)%Q ∧ (reflect <= temperature a)%Q
    ∧ (temperature a <= fast)%Q ∧ (fast <= fork)%Q.
Proof.
  destruct (transform_temperature_order (runtime := integer_runtime)
              (new_adapter ClaudeAdapter (js "sk-test") no_options)
              (js "hi") no_transform_options)
    as (t & r & f & k & Ht & _ & _ & Hk & _ & _ & Htr & Hfk & _ & _ & Hr & Hf).
  exists t, r, f, k. repeat split; try done.
  - apply Hr. by vm_compute.
  - apply Hf. by vm_compute.
Defined.

Lemma join_lines_prefix l ls : l `prefix_of` join_lines (l :: ls).
Proof. destruct ls; simpl; [done | by apply prefix_app_r]. Qed.

(** X9.  No built-in transform drops what the caller gave: for each of the
    three adapters the system prompt of the result begins with the system
    prompt of the caller and the user prompt of the result begins with the
    prompt; the Claude and OpenAI adapters leave the user prompt as it is
    (only the Qwen adapter appends a marker to it). *)
Theorem builtin_transform_keeps_prompts {runtime : Runtime}
    (a : ModelAdapter) (t : Transform) (prompt : jstring) (o : TransformOptions) :
  is_builtin t = true →
  ∃ r sp, run_transform a t prompt o = inr r
          ∧ systemPrompt r = Some sp
          ∧ to_systemPrompt o `prefix_of` sp
          ∧ prompt `prefix_of` userPrompt r
          ∧ (adapterClass a ≠ QwenAdapter → userPrompt r = prompt).
Proof.
  intros Hb.
  assert (or_else (Some (to_systemPrompt o)) [] = to_systemPrompt o) as Hsys
    by by destruct (to_systemPrompt o).
  destruct t; try done; unfold run_transform;
    unfold transformThink, transformFast, transformLoop, transformReflect,
      transformCollapse, transformFork;
    destruct (adapterClass a); eexists _, _;
    (split; [reflexivity|]); (split; [reflexivity|]);
    cbn [systemPrompt userPrompt]; rewrite ?Hsys.
  all: (split; [try first [done | apply join_lines_prefix]|]).
  all: try (split; [|done]).
  all: try destruct (ends_with _ _).
  all: try first [done | by apply prefix_app_r].
  all: unfold Qwen.transformThink, Qwen.transformFast; cbn [userPrompt];
    destruct (ends_with _ _); first [done | by apply prefix_app_r].
Qed.


Lemma builtin_transform_keeps_prompts_witness :
  ∃ r sp, run_transform (runtime := integer_runtime)
            (new_adapter QwenAdapter (js "sk-test") no_options) TransformReflect
            (js "Is water wet?")
            {| to_systemPrompt := js "Be kind."; to_parameters := ∅; to_options := no_options |}
          = inr r
          ∧ systemPrompt r = Some sp
          ∧ js "Be kind." `prefix_of` sp
          ∧ js "Is water wet?" `prefix_of` userPrompt r.
Proof.
  destruct (builtin_transform_keeps_prompts (runtime := integer_runtime)
              (new_adapter QwenAdapter (js "sk-test") no_options) TransformReflect
              (js "Is water wet?")
              {| to_systemPrompt := js "Be kind."; to_parameters := ∅;
                 to_options := no_options |} eq_refl)
    as (r & sp & Hr & Hsp & Hpre & Huser & _).
  by exists r, sp.
Defined.

Lemma drop_while_keeps_suffix l m :
  m ≠ [] → forallb not_space m = true →
  ∃ y, drop_while is_space (l ++ m) = y ++ m.
Proof.
  intros Hm Hns. induction l as [|c l IH]; simpl.
  - exists []. destruct m as [|x m]; [done|]. simpl in *.
    apply andb_true_iff in Hns as [Hx _]. unfold not_space in Hx.
    apply negb_true_iff in Hx. by rewrite Hx.
  - destruct (is_space c); [done|]. by exists (c :: l).
Qed.

Lemma trim_keeps_suffix l m :
  m ≠ [] → forallb not_space m = true →
  ∃ y, trim (l ++ m) = y ++ m.
Proof.
  intros Hm Hns. unfold trim.
  destruct (drop_while_keeps_suffix l m Hm Hns) as [y ->]. exists y.
  rewrite reverse_app.
  assert (∃ x r, reverse m = x :: r ∧ is_space x = false) as (x & r & Hr & Hx).
  { destruct (exists_last Hm) as (m' & x & ->).
    rewrite reverse_snoc. exists x, (reverse m'). split; [done|].
    rewrite forallb_app in Hns. apply andb_true_iff in Hns as [_ Hx]. simpl in Hx.
    rewrite andb_true_r in Hx. by apply negb_true_iff in Hx. }
  assert (drop_while is_space (reverse m ++ reverse y) = reverse m ++ reverse y) as ->
    by (rewrite Hr; simpl; by rewrite Hx).
  by rewrite <- reverse_app, reverse_involutive.
Qed.

Lemma ends_with_app y m : ends_with m (y ++ m) = true.
Proof. unfold ends_with. rewrite reverse_app. apply starts_with_app. Qed.

(** X10.  The markers of the Qwen adapter.  After [transformThink] the user
    prompt, trimmed, always ends with the marker [/think], and after
    [transformFast] with [/no_think]; a prompt that already ends with the
    marker is left alone, so that applying either transform to its own
    result changes nothing more. *)
Theorem Qwen_marker_once (a : ModelAdapter) (prompt : jstring) (o : TransformOptions) :
  let think := userPrompt (Qwen.transformThink a prompt o) in
  let fast := userPrompt (Qwen.transformFast a prompt o) in
  ends_with (js "/think") (trim think) = true
  ∧ userPrompt (Qwen.transformThink a think o) = think
  ∧ ends_with (js "/no_think") (trim fast) = true
  ∧ userPrompt (Qwen.transformFast a fast o) = fast.
Proof.
  intros think fast.
  assert (ends_with (js "/think") (trim think) = true) as Ht.
  { unfold think, Qwen.transformThink. cbn [userPrompt].
    destruct (ends_with (js "/think") (trim prompt)) eqn:He; [done|].
    change (js " /think") with ([32] ++ js "/think"). rewrite app_assoc.
    destruct (trim_keeps_suffix (prompt ++ [32]) (js "/think")) as [y ->]; [done..|].
    apply ends_with_app. }
  assert (ends_with (js "/no_think") (trim fast) = true) as Hf.
  { unfold fast, Qwen.transformFast. cbn [userPrompt].
    destruct (ends_with (js "/no_think") (trim prompt)) eqn:He; [done|].
    change (js " /no_think") with ([32] ++ js "/no_think"). rewrite app_assoc.
    destruct (trim_keeps_suffix (prompt ++ [32]) (js "/no_think")) as [y ->]; [done..|].
    apply ends_with_app. }
  split; [done|]. split; [|split; [done|]].
  - unfold Qwen.transformThink at 1. cbn [userPrompt]. by rewrite Ht.
  - unfold Qwen.transformFast at 1. cbn [userPrompt]. by rewrite Hf.
Qed.

(** ** The request *)

Lemma num_or_else_nonzero x d : Qeq_bool d 0 = false → Qeq_bool (num_or_else x d) 0 = false.
Proof.
  intros Hd. unfold num_or_else. destruct x as [q|]; [|done].
  by destruct (Qeq_bool q 0) eqn:Hq.
Qed.

Lemma val_or_else_truthy x d : truthy d = true → truthy (val_or_else x d) = true.
Proof.
  intros Hd. unfold val_or_else. destruct x as [v|]; [|done].
  by destruct (truthy v) eqn:Hv.
Qed.

Lemma request_body_fallbacks a t :
  body_temperature (body (request_of a t))
  = val_or_else (model_parameter t "temperature") (JNum (temperature a))
  ∧ body_max_tokens (body (request_of a t))
    = val_or_else (model_parameter t "max_tokens") (JNum (maxTokens a))
  ∧ body_messages (body (request_of a t)) = messages_of t
  ∧ body_model (body (request_of a t)) = model a.
Proof. unfold request_of. by destruct (adapterClass a). Qed.

(** X11.  A request of a constructed adapter never carries a falsy
    temperature or token cap (0, the empty string, [false]): the constructor
    replaces a configured 0 by its default and [executePrompt] replaces a
    falsy model parameter by the configured value.  In particular a transform
    that asks for the temperature 0 gets the configured default instead. *)
Theorem request_never_falsy (c : AdapterClass) (k : jstring) (o : AdapterOptions)
    (t : TransformedPrompt) :
  let a := new_adapter c k o in
  let b := body (request_of a t) in
  truthy (body_temperature b) = true
  ∧ truthy (body_max_tokens b) = true
  ∧ (∀ v, model_parameter t "temperature" = Some v → truthy v = false →
          body_temperature b = JNum (temperature a))
  ∧ (∀ v, model_parameter t "temperature" = Some v → truthy v = true →
          body_temperature b = v).
Proof.
  intros a b. unfold b.
  destruct (request_body_fallbacks a t) as (-> & -> & _ & _).
  split; [|split; [|split]].
  - apply val_or_else_truthy. simpl. apply negb_true_iff. by apply num_or_else_nonzero.
  - apply val_or_else_truthy. simpl. apply negb_true_iff. by apply num_or_else_nonzero.
  - intros v -> Hv. simpl. by rewrite Hv.
  - intros v -> Hv. simpl. by rewrite Hv.
Qed.

Lemma request_never_falsy_witness :
  let a := new_adapter OpenAIAdapter (js "sk-test") (with_temperature 0) in
  let t := {| systemPrompt := None; userPrompt := js "hi";
              modelParameters := Some (object [("temperature", JNum 0)]) |} in
  body_temperature (body (request_of a t)) = JNum 0.7.
Proof.
  intros a t.
  destruct (request_never_falsy OpenAIAdapter (js "sk-test") (with_temperature 0) t)
    as (_ & _ & Hzero & _).
  apply (Hzero (JNum 0)); by vm_compute.
Defined.

(** X12.  A prompt without a command goes out with the configuration of the
    adapter: [generate] posts one request whose messages are the system
    prompt of the caller, when it is not empty, and then the prompt as the
    one user message, whose model is the configured one and whose token cap
    and temperature are the configured ones; what [generate] returns is what
    [executePrompt] makes of the answer to that request. *)
Theorem plain_prompt_request {runtime : Runtime} (c : AdapterClass) (k : jstring)
    (o : AdapterOptions) (w : World) (input : GenerateOptions) :
  let a := new_adapter c k o in
  Base.command (parseCommand a (prompt input)) = None →
  ∃ r, generate a w input = outcome_of a (axios_post w r)
       ∧ body_messages (body r)
         = match input_systemPrompt input with
           | Some (x :: s) => [ {| role := js "system"; content := x :: s |} ]
           | _ => []
           end ++ [ {| role := js "user"; content := prompt input |} ]
       ∧ body_model (body r) = model a
       ∧ body_max_tokens (body r) = JNum (maxTokens a)
       ∧ body_temperature (body r) = JNum (temperature a)
       ∧ body_enable_thinking (body r) = None
       ∧ body_presence_penalty (body r) = None
       ∧ body_frequency_penalty (body r) = None.
Proof.
  intros a Hnone. eexists. split.
  - rewrite generate_no_command by done. apply executePrompt_outcome.
  - destruct (request_body_fallbacks a
                {| systemPrompt := Some (default [] (input_systemPrompt input));
                   userPrompt := prompt input; modelParameters := None |})
      as (Ht & Hm & Hmsg & Hmodel).
    rewrite Ht, Hm, Hmsg, Hmodel. split; [|split; [done|split; [done|split; [done|]]]].
    + unfold messages_of. simpl. by destruct (input_systemPrompt input) as [[|??]|].
    + unfold request_of. by destruct (adapterClass a).
Qed.

Lemma plain_prompt_request_witness :
  ∃ r, generate (runtime := integer_runtime)
         (new_adapter ClaudeAdapter (js "sk-test") no_options) online (ask "What is 2+2?")
       = outcome_of (runtime := integer_runtime)
           (new_adapter ClaudeAdapter (js "sk-test") no_options) (axios_post online r)
       ∧ body_messages (body r) = [ {| role := js "user"; content := js "What is 2+2?" |} ]
       ∧ body_max_tokens (body r) = JNum 4096
       ∧ body_temperature (body r) = JNum 0.7.
Proof.
  destruct (plain_prompt_request (runtime := integer_runtime) ClaudeAdapter (js "sk-test")
              no_options online (ask "What is 2+2?"))
    as (r & Hr & Hmsg & _ & Hmax & Htemp & _); [by vm_compute|].
  exists r. repeat split; done.
Defined.



(** ** The facade, completed *)

Lemma begins_leading_token prompt token :
  begins_with_token prompt token → UniversalLLM.leading_token prompt = Some token.
Proof.
  intros (rest & -> & Hne & Hw & Hrest). unfold UniversalLLM.leading_token.
  rewrite N.eqb_refl. destruct (take_while_token token rest Hw Hrest) as [-> _].
  by destruct token.
Qed.

Lemma generate_stats_lookup {runtime : Runtime} w f input c :
  UniversalLLM.getCommandUsageStats (UniversalLLM.after (UniversalLLM.generate w f input)) !! c
  = if bool_decide (UniversalLLM.leading_token (prompt input) = Some c)
    then Some (default 0 (UniversalLLM.getCommandUsageStats f !! c) + 1)
    else UniversalLLM.getCommandUsageStats f !! c.
Proof.
  case_bool_decide as Hc.
  - by rewrite (generate_counts w f input c Hc), lookup_insert_eq.
  - rewrite generate_after.
    destruct (UniversalLLM.leading_token (prompt input)) as [[|d t]|] eqn:Ht; try done.
    unfold UniversalLLM.trackCommandUsage, UniversalLLM.getCommandUsageStats. simpl.
    rewrite lookup_insert_ne; [done|]. congruence.
Qed.

Lemma calls_with_token_cons c w input calls :
  calls_with_token c ((w, input) :: calls)
  = (if bool_decide (UniversalLLM.leading_token (prompt input) = Some c) then 1 else 0)
    + calls_with_token c calls.
Proof.
  unfold calls_with_token. rewrite filter_cons. simpl.
  case_bool_decide as Hc.
  - rewrite decide_True by done. simpl length. lia.
  - rewrite decide_False by done. lia.
Qed.

(** X13.  The usage counters count calls.  After any sequence of calls of
    [generate], whether they returned or threw, the counter of a token is
    what it was plus the number of calls whose prompt begins with that token
    (and it is reported as soon as there is one such call); the calls change
    nothing else in the facade: its adapter, with the registry, and its
    telemetry settings are what they were. *)
Theorem usage_counts_calls {runtime : Runtime} (f : UniversalLLM.t)
    (calls : list (World * GenerateOptions)) (c : jstring) :
  let f' := after_calls f calls in
  default 0 (UniversalLLM.getCommandUsageStats f' !! c)
  = default 0 (UniversalLLM.getCommandUsageStats f !! c) + calls_with_token c calls
  ∧ (0 < calls_with_token c calls →
     UniversalLLM.getCommandUsageStats f' !! c
     = Some (default 0 (UniversalLLM.getCommandUsageStats f !! c) + calls_with_token c calls))
  ∧ UniversalLLM.adapter f' = UniversalLLM.adapter f
  ∧ UniversalLLM.telemetry f' = UniversalLLM.telemetry f.
Proof.
  revert f. induction calls as [|[w input] calls IH]; intros f f'.
  - unfold f'. simpl. change (calls_with_token c []) with 0.
    rewrite N.add_0_r. repeat split; [lia|done..].
  - unfold f' in *. simpl after_calls.
    set (f1 := UniversalLLM.after (UniversalLLM.generate w f input)).
    destruct (IH f1) as (Hsum & Hsome & Had & Htel).
    pose proof (generate_stats_lookup w f input c) as Hstep. fold f1 in Hstep.
    destruct (generate_adapter w f input) as [Had1 Htel1]. fold f1 in Had1, Htel1.
    rewrite calls_with_token_cons.
    split; [|split; [|split; congruence]].
    + rewrite Hsum, Hstep. case_bool_decide; simpl; lia.
    + intros Hpos. revert Hsome Hsum. rewrite Hstep.
      case_bool_decide as Hc; simpl; intros Hsome Hsum.
      * destruct (N.eq_dec (calls_with_token c calls) 0) as [Hz|Hnz].
        -- rewrite Hz in *. rewrite N.add_0_r in *.
           destruct (UniversalLLM.getCommandUsageStats (after_calls f1 calls) !! c) as [n|] eqn:Hn;
             simpl in Hsum; [by rewrite Hsum|].
           lia.
        -- rewrite Hsome by lia. f_equal. lia.
      * rewrite Hsome by lia. done.
Qed.

Lemma usage_counts_calls_witness :
  UniversalLLM.getCommandUsageStats
    (after_calls (runtime := integer_runtime) (fresh_facade ClaudeAdapter)
       [ (online, ask "/think one"); (offline, ask "/loop two"); (online, ask "three");
         (offline, ask "/think four") ]) !! js "think" = Some 2.
Proof.
  destruct (usage_counts_calls (runtime := integer_runtime) (fresh_facade ClaudeAdapter)
              [ (online, ask "/think one"); (offline, ask "/loop two"); (online, ask "three");
                (offline, ask "/think four") ] (js "think")) as (_ & Hsome & _).
  rewrite Hsome; by vm_compute.
Defined.

(** X14.  A prompt that does not begin with a slash and a token leaves no
    trace: the facade is what it was (no counter moves), no telemetry is
    posted whatever the setting, and the result is what [executePrompt] makes
    of the prompt as it is. *)
Theorem plain_prompt_no_trace {runtime : Runtime} (w : World) (f : UniversalLLM.t)
    (input : GenerateOptions) :
  UniversalLLM.leading_token (prompt input) = None →
  UniversalLLM.generate w f input
  = {| UniversalLLM.response :=
         executePrompt (UniversalLLM.adapter f) w
           {| systemPrompt := Some (default [] (input_systemPrompt input));
              userPrompt := prompt input;
              modelParameters := None |};
       UniversalLLM.after := f;
       UniversalLLM.posted := [] |}.
Proof.
  intros Hnone.
  assert (generate (UniversalLLM.adapter f) w input
          = executePrompt (UniversalLLM.adapter f) w
              {| systemPrompt := Some (default [] (input_systemPrompt input));
                 userPrompt := prompt input;
                 modelParameters := None |}) as Hplain.
  { apply generate_no_command. rewrite parseCommand_unresolved; [done|].
    left. intros name Hname. apply begins_leading_token in Hname. congruence. }
  unfold UniversalLLM.generate. rewrite Hnone, Hplain.
  by destruct (executePrompt _ _ _).
Qed.

Lemma plain_prompt_no_trace_witness :
  UniversalLLM.generate (runtime := integer_runtime) online (fresh_facade OpenAIAdapter)
    (ask "tell me a /think joke")
  = {| UniversalLLM.response := inr (Some (JsonString (js "Paris")));
       UniversalLLM.after := fresh_facade OpenAIAdapter;
       UniversalLLM.posted := [] |}.
Proof.
  rewrite (plain_prompt_no_trace (runtime := integer_runtime) online
             (fresh_facade OpenAIAdapter) (ask "tell me a /think joke")) by by vm_compute.
  by vm_compute.
Defined.

(** X15.  [setTelemetryEnabled] only decides whether events are posted: the
    response of a later [generate] and the counters after it do not depend
    on the setting, and once telemetry is disabled no call posts an event. *)
Theorem setTelemetryEnabled_only_telemetry {runtime : Runtime} (b : bool) (w : World)
    (f : UniversalLLM.t) (input : GenerateOptions) :
  let r := UniversalLLM.generate w (UniversalLLM.setTelemetryEnabled b f) input in
  UniversalLLM.response r = UniversalLLM.response (UniversalLLM.generate w f input)
  ∧ UniversalLLM.getCommandUsageStats (UniversalLLM.after r)
    = UniversalLLM.getCommandUsageStats (UniversalLLM.after (UniversalLLM.generate w f input))
  ∧ (b = false → UniversalLLM.posted r = []).
Proof.
  intros r. unfold r. split; [|split].
  - by rewrite !generate_response.
  - rewrite !generate_after. by destruct (UniversalLLM.leading_token _) as [[|??]|].
  - intros ->. unfold UniversalLLM.generate.
    destruct (UniversalLLM.leading_token (prompt input)) as [[|d t]|];
      by destruct (generate _ w input).
Qed.

Lemma setTelemetryEnabled_only_telemetry_witness :
  UniversalLLM.posted
    (UniversalLLM.generate (runtime := integer_runtime) online
       (UniversalLLM.setTelemetryEnabled false (fresh_facade QwenAdapter))
       (ask "/fast name a colour")) = [].
Proof.
  by apply (setTelemetryEnabled_only_telemetry (runtime := integer_runtime) false online
              (fresh_facade QwenAdapter) (ask "/fast name a colour")).
Defined.

(** X16.  A command registered through the facade is run by [generate]: for
    a prompt that begins with its name (which no alias entry stands for) and
    white space, the function of the caller receives the clean prompt (what
    follows the first line), the system prompt of the caller, the parameters
    parsed from the first line and the options of the adapter; its rejection
    is the error of [generate], and otherwise its result goes to
    [executePrompt]. *)
Theorem custom_command_runs {runtime : Runtime} (w : World) (f : UniversalLLM.t)
    (n d : jstring) (als : option (list jstring)) (ps : option (list ParameterDeclaration))
    (g : jstring → TransformOptions → jstring + TransformedPrompt)
    (sys : option jstring) (ws line more : jstring) :
  is_name n = true →
  aliasMap (UniversalLLM.adapter f) !! n = None →
  ws ≠ [] → forallb is_space ws = true →
  forallb not_newline line = true →
  match line with [] => more = [] | c :: _ => is_space c = false end →
  match more with [] => True | c :: _ => c = 10 end →
  let f' := UniversalLLM.registerCommand n d als ps (TransformCustom g) f in
  let a' := UniversalLLM.adapter f' in
  UniversalLLM.response
    (UniversalLLM.generate w f'
       {| prompt := slash :: n ++ ws ++ line ++ more; input_systemPrompt := sys |})
  = match g (trim more)
            {| to_systemPrompt := default [] sys;
               to_parameters := parseParameters a' n line;
               to_options := options (UniversalLLM.adapter f) |} with
    | inl e => inl e
    | inr t => executePrompt a' w t
    end.
Proof.
  intros Hn Hal Hws Hsp Hline Hhead Hmore f' a'.
  set (cmd := {| name := n; description := d; aliases := als; parameters := ps;
                 transform := TransformCustom g |}).
  assert (n ≠ []) as Hne.
  { apply andb_true_iff in Hn as [Hne _].
    by apply negb_true_iff, bool_decide_eq_false in Hne. }
  assert (a' = registerCommand cmd (UniversalLLM.adapter f)) as Ha' by done.
  assert (resolve_alias a' n = n) as Hres.
  { unfold resolve_alias. rewrite Ha', aliasMap_registerCommand.
    change (name cmd) with n.
    case_bool_decide; [by apply or_else_some|]. by rewrite Hal. }
  assert (commands a' !! n = Some cmd) as Hcmd.
  { rewrite Ha', commands_registerCommand. change (name cmd) with n.
    by rewrite lookup_insert_eq. }
  rewrite generate_response. fold a'. unfold generate, transformed. simpl prompt.
  rewrite (parseCommand_after_space a' n cmd ws line more) by (done || by rewrite Hres).
  rewrite Hres. cbn [Base.command cleanPrompt params].
  destruct n as [|n0 n]; [done|]. rewrite Hcmd.
  unfold cmd. cbn [transform run_transform input_systemPrompt].
  assert (options a' = options (UniversalLLM.adapter f)) as -> by done.
  by destruct (g _ _).
Qed.

Lemma custom_command_runs_witness :
  UniversalLLM.response
    (UniversalLLM.generate (runtime := integer_runtime) online
       (UniversalLLM.registerCommand (js "shout") (js "Answer in capitals") None None
          (TransformCustom (λ prompt o,
             inr {| systemPrompt := Some (js "USE CAPITALS"); userPrompt := prompt;
                    modelParameters := None |}))
          (fresh_facade ClaudeAdapter))
       {| prompt := slash :: js "shout" ++ js " " ++ js "now" ++ js "
hello";
          input_systemPrompt := None |})
  = inr (Some (JsonString (js "Paris"))).
Proof.
  rewrite (custom_command_runs (runtime := integer_runtime) online
             (fresh_facade ClaudeAdapter) (js "shout") (js "Answer in capitals") None None
             _ None (js " ") (js "now") (js "
hello")) by by vm_compute.
  by vm_compute.
Defined.

(** ** The command line *)

Lemma core_names_registered c k o cmd_name :
  cmd_name ∈ Cli.symbolicCommands.*1 →
  is_name cmd_name = true
  ∧ resolve_alias (new_adapter c k o) cmd_name = cmd_name
  ∧ is_Some (commands (new_adapter c k o) !! cmd_name).
Proof.
  intros Hin. simpl in Hin.
  repeat (apply elem_of_cons in Hin as [->|Hin]); try by apply elem_of_nil in Hin.
  all: split; [by vm_compute|]; split; [by vm_compute|];
    rewrite commands_new_adapter; vm_compute; by eexists.
Qed.

Lemma supplied_after_space n w s : is_space w = true → supplied n (w :: s) = supplied n s.
Proof.
  intros Hw. unfold supplied. by rewrite exec_all_cons, match_paramRegex_here_space.
Qed.

Lemma value_not_newline v : is_value v = true → forallb not_newline v = true.
Proof.
  intros [_ Hv]%andb_true_iff. induction v as [|c v IH]; [done|].
  simpl in *. apply andb_true_iff in Hv as [Hc Hv]. rewrite IH by done.
  rewrite andb_true_r. unfold not_space in Hc. unfold not_newline.
  destruct (c =? 10) eqn:E; [|done]. apply N.eqb_eq in E. by subst c.
Qed.

(** X17.  The prompts that the sub-commands of the command line assemble.
    For each of the six sub-commands and a prompt text whose first line
    starts with a character that is not white space (options, when given,
    being values without white space), the assembled prompt begins with the
    token of the sub-command, which every freshly constructed adapter
    resolves; the option [--iterations] of [loop] and the option [--count]
    of [fork] arrive as the parameter of that name, as strings; and the
    clean prompt is what follows the first line of the text. *)
Theorem cli_prompt_parsed (c : AdapterClass) (k : jstring) (o : AdapterOptions)
    (cmd_name : jstring) (iterations count promptArg pipedInput : option jstring)
    (line more : jstring) :
  cmd_name ∈ Cli.symbolicCommands.*1 →
  Cli.combine promptArg pipedInput = line ++ more →
  match line with [] => False | x :: _ => is_space x = false end →
  forallb not_newline line = true →
  match more with [] => True | x :: _ => x = 10 end →
  (∀ v, Cli.given iterations = Some v → is_value v = true) →
  (∀ v, Cli.given count = Some v → is_value v = true) →
  let a := new_adapter c k o in
  ∃ full, Cli.fullPrompt cmd_name iterations count promptArg pipedInput = Some full
          ∧ UniversalLLM.leading_token full = Some cmd_name
          ∧ Base.command (parseCommand a full) = Some cmd_name
          ∧ cleanPrompt (parseCommand a full) = trim more
          ∧ (∀ v, cmd_name = js "loop" → Cli.given iterations = Some v →
                  supplied (js "iterations") line = None →
                  params (parseCommand a full) !! js "iterations" = Some (JStr v))
          ∧ (∀ v, cmd_name = js "fork" → Cli.given count = Some v →
                  supplied (js "count") line = None →
                  params (parseCommand a full) !! js "count" = Some (JStr v)).
Proof.
  intros Hin Hcomb Hhead Hline Hmore Hiter Hcount a.
  destruct (core_names_registered c k o cmd_name Hin) as (Hname & Hres & [cmd Hcmd]).
  fold a in Hres, Hcmd.
  assert (line ≠ []) as Hlne by by destruct line.
  assert (Cli.combine promptArg pipedInput ≠ []) as Hcne
    by (rewrite Hcomb; by destruct line).
  (* the option that the sub-command adds, if any *)
  set (extra := match bool_decide (cmd_name = js "loop"), Cli.given iterations with
                | true, Some i => Some (js "iterations", i)
                | _, _ =>
                    match bool_decide (cmd_name = js "fork"), Cli.given count with
                    | true, Some n => Some (js "count", n)
                    | _, _ => None
                    end
                end).
  set (first := match extra with
                | Some (key, v) => kv_token key v ++ 32 :: line
                | None => line
                end).
  assert (Cli.fullPrompt cmd_name iterations count promptArg pipedInput
          = Some (slash :: cmd_name ++ [32] ++ first ++ more)) as Hfull.
  { unfold Cli.fullPrompt, first, extra.
    destruct (Cli.combine promptArg pipedInput) as [|x s] eqn:Hc; [done|].
    rewrite Hcomb. unfold kv_token.
    destruct (bool_decide (cmd_name = js "loop")), (Cli.given iterations) as [i|];
      destruct (bool_decide (cmd_name = js "fork")), (Cli.given count) as [m|];
      cbn [app]; f_equal; f_equal; by rewrite <- ?app_assoc. }
  assert (∀ key v, extra = Some (key, v) → is_value v = true ∧ is_name key = true) as Hextra.
  { unfold extra. intros key v.
    destruct (bool_decide (cmd_name = js "loop")), (Cli.given iterations) as [i|] eqn:Hi;
      destruct (bool_decide (cmd_name = js "fork")), (Cli.given count) as [m|] eqn:Hm;
      intros [= <- <-] || intros [=]; split; auto. }
  assert (forallb not_newline first = true
          ∧ match first with [] => more = [] | x :: _ => is_space x = false end)
    as [Hfirst Hfhead].
  { unfold first. destruct extra as [[key v]|] eqn:He.
    - destruct (Hextra key v eq_refl) as [Hv Hk]. split; [|done].
      unfold kv_token. simpl. rewrite forallb_app. simpl. rewrite forallb_app. simpl.
      rewrite Hline, (value_not_newline v Hv), !andb_true_r.
      apply andb_true_iff in Hk as [_ Hk].
      clear -Hk. induction key as [|x key IH]; [done|]. simpl in *.
      apply andb_true_iff in Hk as [Hx Hk]. rewrite IH by done. rewrite andb_true_r.
      unfold not_newline. destruct (x =? 10) eqn:E; [|done].
      apply N.eqb_eq in E. by subst x.
    - split; [done|]. by destruct line. }
  assert (commands a !! resolve_alias a cmd_name = Some cmd) as Hcmd' by by rewrite Hres.
  assert ([32] ≠ ([] : jstring)) as Hws by done.
  pose proof (parseCommand_after_space a cmd_name cmd [32] first more Hname
                Hcmd' Hws eq_refl Hfirst Hfhead Hmore) as Hparse.
  rewrite Hres in Hparse.
  exists (slash :: cmd_name ++ [32] ++ first ++ more).
  split; [done|]. split; [|split; [by rewrite Hparse|split; [by rewrite Hparse|]]].
  - apply begins_leading_token. exists ([32] ++ first ++ more).
    apply andb_true_iff in Hname as [Hne Hw].
    apply negb_true_iff, bool_decide_eq_false in Hne. done.
  - split.
    + intros v -> Hi Hno.
      assert (extra = Some (js "iterations", v)) as He by (unfold extra; by rewrite Hi).
      rewrite Hparse. simpl. unfold first. rewrite He.
      destruct (Hextra _ _ He) as [Hv Hk].
      assert (parameters cmd = Some [iterations_parameter]) as Hps
        by (unfold a in Hcmd; vm_compute in Hcmd; by injection Hcmd as <-).
      rewrite (parseParameters_lookup a (js "loop") cmd [iterations_parameter] _ _ Hcmd Hps) by done.
      change (kv_token (js "iterations") v ++ 32 :: line)
        with ([] ++ kv_token (js "iterations") v ++ 32 :: line).
      rewrite (supplied_token [] _ (32 :: line) (js "iterations") (JStr v));
        auto using exec_all_kv_token.
      by rewrite supplied_after_space.
    + intros v -> Hm Hno.
      assert (extra = Some (js "count", v)) as He by (unfold extra; by rewrite Hm).
      rewrite Hparse. simpl. unfold first. rewrite He.
      destruct (Hextra _ _ He) as [Hv Hk].
      assert (parameters cmd = Some [count_parameter]) as Hps
        by (unfold a in Hcmd; vm_compute in Hcmd; by injection Hcmd as <-).
      rewrite (parseParameters_lookup a (js "fork") cmd [count_parameter] _ _ Hcmd Hps) by done.
      change (kv_token (js "count") v ++ 32 :: line)
        with ([] ++ kv_token (js "count") v ++ 32 :: line).
      rewrite (supplied_token [] _ (32 :: line) (js "count") (JStr v));
        auto using exec_all_kv_token.
      by rewrite supplied_after_space.
Qed.

Lemma cli_prompt_parsed_witness :
  let a := new_adapter ClaudeAdapter (js "sk-test") no_options in
  ∃ full, Cli.fullPrompt (js "loop") (Some (js "4")) None
            (Some (js "tidy this")) (Some (js "def f(): pass")) = Some full
          ∧ Base.command (parseCommand a full) = Some (js "loop")
          ∧ cleanPrompt (parseCommand a full) = js "def f(): pass"
          ∧ params (parseCommand a full) !! js "iterations" = Some (JStr (js "4")).
Proof.
  intros a.
  destruct (cli_prompt_parsed ClaudeAdapter (js "sk-test") no_options (js "loop")
              (Some (js "4")) None (Some (js "tidy this")) (Some (js "def f(): pass"))
              (js "tidy this") (nl ++ nl ++ js "def f(): pass"))
    as (full & Hfull & _ & Hcmd & Hclean & Hiter & _).
  - apply elem_of_cons. right. apply elem_of_cons. right. apply elem_of_cons. by left.
  - by vm_compute.
  - by vm_compute.
  - by vm_compute.
  - by vm_compute.
  - intros v [= <-]. by vm_compute.
  - intros v [=].
  - exists full. split; [done|]. split; [done|]. split.
    + etransitivity; [exact Hclean | by vm_compute].
    + apply Hiter; by vm_compute.
Defined.
